(** * SUE-Sim performance-data scripts: load-balance fairness metrics and
      packet-loss accounting

    Shallow embedding of
      - [performance-data/scripts/load_balance_analyzer.py]
        ([calculate_load_balance_metrics], the scoring loop of
        [create_fairness_analysis], the chart/report part of [main]);
      - [performance-data/scripts/loss_analyzer.py]
        ([calculate_packet_loss]);
      - further parts of the same two scripts: file discovery
        ([find_load_balance_data], [find_default_log_file],
        [contains_valid_data]), the data behind the box plot, the heatmap
        and the bar colours, the numbers of [generate_analysis_report],
        and the rows written by [save_loss_analysis].

    Integers are [Z].  Python floats are modelled by exact real numbers
    ([R]); the one place where the source injects [float('inf')] is modelled
    by the extended type [pyfloat].  Rounding of binary64 arithmetic is not
    modelled. *)

From Stdlib Require Import ZArith List Bool Lia Permutation Sorted.
From Stdlib Require Import Reals Lra String Ascii.
Import ListNotations.

Open Scope Z_scope.

(** ** Exceptions *)

Inductive exn : Type :=
| ValueError (msg : string)
| KeyError (key : Z)
| RenderError (msg : string).

(** [str(e)] *)
Definition exn_message (e : exn) : string :=
  match e with
  | ValueError msg => msg
  | KeyError _ => "key"
  | RenderError msg => msg
  end.

Inductive result (A : Type) : Type :=
| Ok (a : A)
| Raise (e : exn).
Arguments Ok {A} a.
Arguments Raise {A} e.

Definition bind {A B} (m : result A) (k : A -> result B) : result B :=
  match m with
  | Ok a => k a
  | Raise e => Raise e
  end.

Notation "x <- m ;; k" := (bind m (fun x => k))
  (at level 61, m at next level, right associativity).

(** [for x in xs: acc.append(body x)], stopping at the first exception. *)
Fixpoint for_each {A B} (body : A -> result B) (xs : list A) : result (list B) :=
  match xs with
  | [] => Ok []
  | x :: rest =>
      y <- body x ;;
      ys <- for_each body rest ;;
      Ok (y :: ys)
  end.

(** ** The request table (a pandas DataFrame with four integer columns) *)

Module Frame.

Record Row : Type := mkRow {
  LocalXpuId : Z;
  DestXpuId : Z;
  VcId : Z;
  SueId : Z
}.

Definition DataFrame := list Row.

(** [Series.unique()]: the distinct values, in order of first appearance. *)
Fixpoint unique (col : list Z) : list Z :=
  match col with
  | [] => []
  | x :: rest => x :: filter (fun y => negb (y =? x)) (unique rest)
  end.

(** Stable ascending sort on an integer key (Python's [sorted],
    pandas' [sort_index] / [sort_values]). *)
Fixpoint insert_by {A} (key : A -> Z) (x : A) (l : list A) : list A :=
  match l with
  | [] => [x]
  | y :: rest => if key x <=? key y then x :: l else y :: insert_by key x rest
  end.

Definition sort_by {A} (key : A -> Z) (l : list A) : list A :=
  fold_right (insert_by key) [] l.

Definition sorted (l : list Z) : list Z := sort_by (fun x => x) l.

(** Number of entries of [col] equal to [v]. *)
Definition occurrences (v : Z) (col : list Z) : Z :=
  Z.of_nat (List.length (filter (fun y => y =? v) col)).

(** [Series.value_counts()]: one (value, count) entry per distinct value,
    most frequent first. *)
Definition value_counts (col : list Z) : list (Z * Z) :=
  sort_by (fun p => - snd p)
          (map (fun v => (v, occurrences v col)) (unique col)).

(** [Series.sort_index()] on a series indexed by integer labels. *)
Definition sort_index (s : list (Z * Z)) : list (Z * Z) := sort_by fst s.

(** [df[df['LocalXpuId'] == local_xpu]] *)
Definition select_local (df : DataFrame) (local_xpu : Z) : DataFrame :=
  filter (fun r => LocalXpuId r =? local_xpu) df.

Definition len {A} (l : list A) : Z := Z.of_nat (List.length l).

(** Order induced by an integer key. *)
Definition key_le {A} (key : A -> Z) (a b : A) : Prop := key a <= key b.

End Frame.

(** ** The numpy reductions used by the analyzer *)

Module Numpy.

Local Open Scope R_scope.

Definition rsum (a : list R) : R := fold_right Rplus 0 a.

(** [np.mean(a)] of a one-dimensional array. *)
Definition mean (a : list R) : R := rsum a / INR (List.length a).

(** [np.std(a)] with the default [ddof=0]:
    [sqrt(mean(abs(a - a.mean())**2))]. *)
Definition std (a : list R) : R :=
  sqrt (mean (map (fun x => Rsqr (Rabs (x - mean a))) a)).

(** An integer array seen as floats. *)
Definition as_float (a : list Z) : list R := map IZR a.

(** [np.max] / [np.min] of an integer array; an empty array raises
    ValueError. *)
Fixpoint amax (a : list Z) : result Z :=
  match a with
  | [] => Raise (ValueError "zero-size array to reduction operation maximum which has no identity")
  | x :: rest =>
      match rest with
      | [] => Ok x
      | _ => match amax rest with
             | Ok m => Ok (Z.max x m)
             | Raise e => Raise e
             end
      end
  end.

Fixpoint amin (a : list Z) : result Z :=
  match a with
  | [] => Raise (ValueError "zero-size array to reduction operation minimum which has no identity")
  | x :: rest =>
      match rest with
      | [] => Ok x
      | _ => match amin rest with
             | Ok m => Ok (Z.min x m)
             | Raise e => Raise e
             end
      end
  end.

End Numpy.

(** ** Python floats that may be infinite *)

Module PyFloat.

Local Open Scope R_scope.

Inductive pyfloat : Type :=
| Fin (r : R)
| PInf
| NInf
| NaN.

Definition fneg (x : pyfloat) : pyfloat :=
  match x with
  | Fin r => Fin (- r)
  | PInf => NInf
  | NInf => PInf
  | NaN => NaN
  end.

Definition fadd (x y : pyfloat) : pyfloat :=
  match x, y with
  | Fin a, Fin b => Fin (a + b)
  | NaN, _ | _, NaN => NaN
  | PInf, NInf | NInf, PInf => NaN
  | PInf, _ | _, PInf => PInf
  | NInf, _ | _, NInf => NInf
  end.

Definition fsub (x y : pyfloat) : pyfloat := fadd x (fneg y).

(** Product of an infinity of sign [pos] with the finite value [r]. *)
Definition inf_times (pos : bool) (r : R) : pyfloat :=
  if Rlt_dec 0 r then (if pos then PInf else NInf)
  else if Rlt_dec r 0 then (if pos then NInf else PInf)
  else NaN.

Definition fmul (x y : pyfloat) : pyfloat :=
  match x, y with
  | Fin a, Fin b => Fin (a * b)
  | NaN, _ | _, NaN => NaN
  | PInf, Fin r | Fin r, PInf => inf_times true r
  | NInf, Fin r | Fin r, NInf => inf_times false r
  | PInf, PInf | NInf, NInf => PInf
  | PInf, NInf | NInf, PInf => NInf
  end.

(** Division by a positive finite constant. *)
Definition fdiv_pos (x : pyfloat) (c : R) : pyfloat :=
  match x with
  | Fin a => Fin (a / c)
  | other => other
  end.

(** [y > x] on floats; every comparison with NaN is false. *)
Definition fgt (y x : pyfloat) : bool :=
  match y, x with
  | Fin b, Fin a => if Rlt_dec a b then true else false
  | NaN, _ | _, NaN => false
  | PInf, PInf => false
  | PInf, _ => true
  | NInf, _ => false
  | Fin _, NInf => true
  | Fin _, PInf => false
  end.

(** Python's two-argument [max(x, y)]: [y] when [y > x], else [x]. *)
Definition py_max (x y : pyfloat) : pyfloat := if fgt y x then y else x.

End PyFloat.

(** ** load_balance_analyzer.py *)

Module LoadBalance.

Import Frame Numpy PyFloat.
Local Open Scope R_scope.

(** The per-XPU dictionary built by [calculate_load_balance_metrics]. *)
Record Metrics : Type := mkMetrics {
  total_requests : Z;
  num_sues : Z;
  ideal_per_sue : R;
  cv : R;
  max_min_ratio : pyfloat;
  rsd : R;
  sue_counts : list (Z * Z)
}.

(** A Python dict keyed by XPU id, in insertion order. *)
Definition MetricsDict := list (Z * Metrics).

Definition keys (d : MetricsDict) : list Z := map fst d.

(** [d[k]] *)
Fixpoint getitem (d : MetricsDict) (k : Z) : result Metrics :=
  match d with
  | [] => Raise (KeyError k)
  | (k', m) :: rest => if (k' =? k)%Z then Ok m else getitem rest k
  end.

(** Line 121: [ideal_per_sue]. *)
Definition ideal_per_sue_of (total_requests num_sues : Z) : R :=
  if (0 <? num_sues)%Z then IZR total_requests / IZR num_sues else 0.

(** Line 128: the coefficient of variation of the counts.  On an empty
    array numpy's mean is NaN and [NaN > 0] is false; here the mean of the
    empty array is 0 and the same branch is taken. *)
Definition cv_of (actual_counts : list Z) : R :=
  if Rlt_dec 0 (mean (as_float actual_counts))
  then std (as_float actual_counts) / mean (as_float actual_counts)
  else 0.

(** Line 131: the max/min ratio; [np.min] and [np.max] raise on an empty
    array. *)
Definition max_min_ratio_of (actual_counts : list Z) : result pyfloat :=
  lo <- amin actual_counts ;;
  if (0 <? lo)%Z
  then hi <- amax actual_counts ;; Ok (Fin (IZR hi / IZR lo))
  else Ok PInf.

(** Line 134: the relative standard deviation, in percent. *)
Definition rsd_of (actual_counts : list Z) (ideal_per_sue : R) : R :=
  if Rlt_dec 0 ideal_per_sue
  then std (as_float actual_counts) / ideal_per_sue * 100
  else 0.

(** The body of the loop of [calculate_load_balance_metrics] for one
    [local_xpu]. *)
Definition xpu_metrics (df : DataFrame) (local_xpu : Z) : result Metrics :=
  let xpu_data := select_local df local_xpu in
  let sue_counts := sort_index (value_counts (map SueId xpu_data)) in
  let total_requests := len xpu_data in
  let num_sues := len sue_counts in
  let ideal_per_sue := ideal_per_sue_of total_requests num_sues in
  let actual_counts := map snd sue_counts in
  let cv := cv_of actual_counts in
  max_min_ratio <- max_min_ratio_of actual_counts ;;
  let rsd := rsd_of actual_counts ideal_per_sue in
  Ok {| total_requests := total_requests;
        num_sues := num_sues;
        ideal_per_sue := ideal_per_sue;
        cv := cv;
        max_min_ratio := max_min_ratio;
        rsd := rsd;
        sue_counts := sue_counts |}.

Definition calculate_load_balance_metrics (df : DataFrame) : result MetricsDict :=
  for_each (fun local_xpu => m <- xpu_metrics df local_xpu ;; Ok (local_xpu, m))
           (sorted (unique (map LocalXpuId df))).

(** One iteration of the scoring loop of [create_fairness_analysis]. *)
Definition cv_score (m : Metrics) : pyfloat :=
  py_max (Fin 0) (fsub (Fin 100) (fmul (Fin (cv m)) (Fin 500))).

Definition rsd_score (m : Metrics) : pyfloat :=
  py_max (Fin 0) (fsub (Fin 100) (fmul (Fin (rsd m)) (Fin 2.5))).

Definition ratio_score (m : Metrics) : pyfloat :=
  py_max (Fin 0) (fsub (Fin 100) (fmul (fsub (max_min_ratio m) (Fin 1)) (Fin 50))).

Definition overall_score (m : Metrics) : pyfloat :=
  fdiv_pos (fadd (fadd (cv_score m) (rsd_score m)) (ratio_score m)) 3.

(** [sue_counts.values] of a finished record. *)
Definition actual_counts (m : Metrics) : list Z := map snd (sue_counts m).

(** [fairness_scores], with the XPU each score belongs to. *)
Definition fairness_scores (metrics : MetricsDict) : result (list (Z * pyfloat)) :=
  for_each (fun xpu => m <- getitem metrics xpu ;; Ok (xpu, overall_score m))
           (sorted (keys metrics)).

End LoadBalance.

(** ** loss_analyzer.py *)

Module Loss.

Local Open Scope string_scope.
Local Open Scope Z_scope.

(** [needle in hay] *)
Fixpoint contains (needle hay : string) : bool :=
  match hay with
  | EmptyString => prefix needle hay
  | String _ rest => prefix needle hay || contains needle rest
  end.

Definition is_digit (c : ascii) : bool :=
  (48 <=? nat_of_ascii c)%nat && (nat_of_ascii c <=? 57)%nat.

Definition digit_value (c : ascii) : Z := Z.of_nat (nat_of_ascii c - 48).

(** The longest run of digits at the start of [s] (as matched by a greedy
    [\d+]), with the rest of the string. *)
Fixpoint span_digits (s : string) : list ascii * string :=
  match s with
  | EmptyString => ([], s)
  | String c rest =>
      if is_digit c
      then let (ds, tail) := span_digits rest in (c :: ds, tail)
      else ([], s)
  end.

(** [int(digits)] *)
Definition int_of_digits (ds : list ascii) : Z :=
  fold_left (fun acc c => 10 * acc + digit_value c) ds 0.

Fixpoint drop (n : nat) (s : string) : string :=
  match n, s with
  | O, _ => s
  | S k, String _ rest => drop k rest
  | S _, EmptyString => EmptyString
  end.

(** The pattern [verb (\d+) packets] anchored at the start of [s]; the
    value is [int(match.group(1))].  A shorter run of digits can never be
    followed by the blank of [" packets"], so the greedy run decides.
    Lines are strings of bytes here, so [\d] is an ASCII digit. *)
Definition match_here (verb s : string) : option Z :=
  if prefix (verb ++ " ") s
  then let (ds, tail) := span_digits (drop (String.length verb + 1) s) in
       match ds with
       | [] => None
       | _ => if prefix " packets" tail then Some (int_of_digits ds) else None
       end
  else None.

(** [re.search(verb + r' (\d+) packets', line)]: the leftmost match. *)
Fixpoint re_search (verb line : string) : option Z :=
  match match_here verb line with
  | Some n => Some n
  | None =>
      match line with
      | EmptyString => None
      | String _ rest => re_search verb rest
      end
  end.

Record Totals : Type := mkTotals {
  total_sent : Z;
  total_received : Z;
  total_dropped : Z
}.

(** The body of [for line in file]. *)
Definition scan_line (t : Totals) (line : string) : Totals :=
  if contains "Summary: Sent" line then
    match re_search "Sent" line with
    | Some n => mkTotals (total_sent t + n) (total_received t) (total_dropped t)
    | None => t
    end
  else if contains "Received" line && contains "Port" line then
    match re_search "Received" line with
    | Some n => mkTotals (total_sent t) (total_received t + n) (total_dropped t)
    | None => t
    end
  else if contains "Dropped" line && contains "Port" line then
    match re_search "Dropped" line with
    | Some n => mkTotals (total_sent t) (total_received t) (total_dropped t + n)
    | None => t
    end
  else t.

Definition scan (log : list string) : Totals :=
  fold_left scan_line log (mkTotals 0 0 0).

(** What [calculate_packet_loss] returns: an error string, or the tuple
    (sent, received, dropped, network_loss_rate, receiver_loss_rate,
    total_loss_rate). *)
Inductive LossResult : Type :=
| LossError (msg : string)
| LossStats (sent received dropped : Z)
            (network_loss_rate receiver_loss_rate total_loss_rate : R).

Definition calculate_packet_loss (log : list string) : LossResult :=
  let t := scan log in
  let total_sent := total_sent t in
  let total_received := total_received t in
  let total_dropped := total_dropped t in
  (* Temporary fix: Add switch packet loss calculation *)
  let total_dropped :=
    if (total_received <? total_sent) && (total_dropped =? 0)
    then total_sent - total_received
    else total_dropped in
  if total_sent =? 0 then LossError "Error: No sent packet data found"
  else
    let network_loss_rate :=
      (IZR (total_sent - total_received) / IZR total_sent * 100)%R in
    let receiver_loss_rate :=
      if total_received =? 0 then 0%R
      else (IZR total_dropped / IZR total_received * 100)%R in
    let total_loss_rate :=
      (IZR (total_sent - (total_received - total_dropped)) / IZR total_sent * 100)%R in
    LossStats total_sent total_received total_dropped
              network_loss_rate receiver_loss_rate total_loss_rate.

(** The tuple returned when the counters are [sent], [received] and
    [dropped] at the point where the rates are computed. *)
Definition stats_from (sent received dropped : Z) : LossResult :=
  LossStats sent received dropped
    (IZR (sent - received) / IZR sent * 100)%R
    (if received =? 0 then 0%R else (IZR dropped / IZR received * 100)%R)
    (IZR (sent - (received - dropped)) / IZR sent * 100)%R.

Definition nonneg_totals (t : Totals) : Prop :=
  0 <= total_sent t /\ 0 <= total_received t /\ 0 <= total_dropped t.

Definition no_sent_data : LossResult :=
  LossError "Error: No sent packet data found".

End Loss.

(** ** The chart and report steps of [main] in load_balance_analyzer.py *)

Module Main.

Inductive chart : Type := BoxPlot | Heatmap | FairnessChart.

Inductive event : Type :=
| SavedChart (c : chart)
| SavedReport
| Printed (msg : string)
| Traceback (e : exn).

(** Everything the run has written so far, oldest first. *)
Definition World := list event.

(** What the plotting back end and the file system do in this run: whether
    rendering a given chart raises, and whether writing the report does. *)
Record Env : Type := mkEnv {
  render : chart -> option exn;
  write_report : option exn
}.

(** Computations that write to the world and may raise. *)
Definition M (A : Type) : Type := World -> result A * World.

Definition ret {A} (a : A) : M A := fun w => (Ok a, w).

Definition seq {A B} (m : M A) (k : A -> M B) : M B :=
  fun w => match m w with
           | (Ok a, w') => k a w'
           | (Raise e, w') => (Raise e, w')
           end.

Definition emit (ev : event) : M unit := fun w => (Ok tt, w ++ [ev]).

Definition raise {A} (e : exn) : M A := fun w => (Raise e, w).

(** [try: body  except Exception as e: handler e] *)
Definition try_except (body : M unit) (handler : exn -> M unit) : M unit :=
  fun w => match body w with
           | (Ok tt, w') => (Ok tt, w')
           | (Raise e, w') => handler e w'
           end.

Notation "m1 >> m2" := (seq m1 (fun _ => m2))
  (at level 62, right associativity).

Definition print (msg : string) : M unit := emit (Printed msg).

(** A chart function: render, [plt.savefig], print, unless rendering raises. *)
Definition create_chart (env : Env) (c : chart) (msg : string) : M unit :=
  match render env c with
  | Some e => raise e
  | None => emit (SavedChart c) >> print msg
  end.

Definition create_box_plot (env : Env) : M unit :=
  create_chart env BoxPlot "Box plot saved".

Definition create_distribution_heatmap (env : Env) : M unit :=
  create_chart env Heatmap "Heatmap saved".

Definition create_fairness_analysis (env : Env) : M unit :=
  create_chart env FairnessChart "Fairness analysis chart saved".

Definition generate_analysis_report (env : Env) : M unit :=
  match write_report env with
  | Some e => raise e
  | None => emit SavedReport >> print "Analysis report saved"
  end.

(** Steps 5 and 6 of [main]. *)
Definition main (env : Env) : M unit :=
  print "Generating visualization charts..." >>
  try_except
    (create_box_plot env >>
     create_distribution_heatmap env >>
     create_fairness_analysis env)
    (fun e => print ("Error generating charts: " ++ exn_message e) >>
              emit (Traceback e)) >>
  print "Generating analysis report..." >>
  generate_analysis_report env >>
  print "LoadBalancer analysis completed!" >>
  print "Results saved at: output_dir" >>
  print "   - load_balance_boxplot.png: Box plot" >>
  print "   - load_balance_heatmap.png: Heatmap" >>
  print "   - load_balance_fairness.png: Fairness analysis" >>
  print "   - load_balance_analysis_report.txt: Detailed report".

Definition run (env : Env) : result unit * World := main env [].

Definition saved (c : chart) (w : World) : bool :=
  existsb (fun ev => match ev with
                     | SavedChart c' =>
                         match c, c' with
                         | BoxPlot, BoxPlot | Heatmap, Heatmap
                         | FairnessChart, FairnessChart => true
                         | _, _ => false
                         end
                     | _ => false
                     end) w.

Definition report_saved (w : World) : bool :=
  existsb (fun ev => match ev with SavedReport => true | _ => false end) w.

End Main.

(** ** The quantities of the specification, written from its wording *)

Module Spec.

Import Frame PyFloat.

(** Target Count: the number of records with the given local and target
    ids. *)
Definition target_count (df : DataFrame) (local_id target_id : Z) : Z :=
  len (filter (fun r => (LocalXpuId r =? local_id) && (SueId r =? target_id)) df).

Definition zsum (counts : list Z) : Z := fold_right Z.add 0 counts.

Definition zmax (counts : list Z) : Z := fold_right Z.max (hd 0 counts) counts.

Definition zmin (counts : list Z) : Z := fold_right Z.min (hd 0 counts) counts.

Local Open Scope R_scope.

(** mean(counts) *)
Definition mean_count (counts : list Z) : R :=
  IZR (zsum counts) / IZR (len counts).

(** Sum of the squared deviations from [mu]. *)
Definition sum_sq_dev (mu : R) (counts : list Z) : R :=
  fold_right (fun x acc => (IZR x - mu) * (IZR x - mu) + acc) 0 counts.

(** population_std_dev(counts) *)
Definition population_std_dev (counts : list Z) : R :=
  sqrt (sum_sq_dev (mean_count counts) counts / IZR (len counts)).


(** max_min_ratio = max / min, +infinity if the minimum is 0. *)
Definition max_min_ratio (counts : list Z) : pyfloat :=
  if (zmin counts =? 0)%Z then PInf
  else Fin (IZR (zmax counts) / IZR (zmin counts)).

End Spec.

(** ** Well-formed records and a sample table *)

Module Invariant.

Import Frame Spec Numpy PyFloat LoadBalance.
Local Open Scope R_scope.

(** A record whose group is non-empty with counts of at least one, and in
    which every guarded expression took its dividing branch. *)
Record Regular (m : Metrics) : Prop := mkRegular {
  counts_nonempty : actual_counts m <> [];
  counts_positive : Forall (fun c => (1 <= c)%Z) (actual_counts m);
  num_sues_len : num_sues m = len (sue_counts m);
  num_sues_positive : (0 < num_sues m)%Z;
  total_is_sum : total_requests m = zsum (actual_counts m);
  mean_positive : 0 < mean (as_float (actual_counts m));
  min_positive : (0 < zmin (actual_counts m))%Z;
  ideal_value : ideal_per_sue m = IZR (total_requests m) / IZR (num_sues m);
  ideal_positive : 0 < ideal_per_sue m;
  cv_value :
    cv m = std (as_float (actual_counts m)) / mean (as_float (actual_counts m));
  ratio_value :
    max_min_ratio m =
    Fin (IZR (zmax (actual_counts m)) / IZR (zmin (actual_counts m)));
  rsd_value :
    rsd m = std (as_float (actual_counts m)) / ideal_per_sue m * 100
}.

(** [score] is the average of the three sub-scores of [m], all of them
    finite and in [0, 100]. *)
Definition scored_within_bounds (m : Metrics) (score : pyfloat) : Prop :=
  exists a b c,
    cv_score m = Fin a /\ rsd_score m = Fin b /\ ratio_score m = Fin c /\
    0 <= a <= 100 /\ 0 <= b <= 100 /\ 0 <= c <= 100 /\
    score = Fin ((a + b + c) / 3) /\
    0 <= (a + b + c) / 3 <= 100.

End Invariant.

Module Examples.

Import Frame.

Definition req (local_xpu sue : Z) : Row := mkRow local_xpu 0 0 sue.

(** XPU 1 sends two requests to each of the SUEs 10, 11 and 12, XPU 2
    three to SUE 10 and one to SUE 11, XPU 3 a single one to SUE 10. *)
Definition table : DataFrame :=
  [req 1 10; req 2 10; req 1 11; req 3 10; req 1 12; req 2 10;
   req 1 12; req 2 11; req 1 11; req 2 10; req 1 10].

(** A log whose drop counters are all 0 although 90 packets are missing. *)
Definition log_switch_loss : list string :=
  ["Summary: Sent 120 packets"%string;
   "XPU1 Port 2 Received 30 packets"%string;
   "XPU1 Port 2 Dropped 0 packets"%string].

(** A log with an explicit drop count. *)
Definition log_explicit_drops : list string :=
  ["Summary: Sent 120 packets"%string;
   "XPU1 Port 2 Received 30 packets"%string;
   "XPU1 Port 2 Dropped 5 packets"%string].

(** A log without any send summary. *)
Definition log_nothing_sent : list string :=
  ["XPU1 Port 2 Dropped 5 packets"%string].

(** A run in which only the box plot fails to render. *)
Definition box_plot_fails : Main.Env :=
  Main.mkEnv (fun c => match c with
                       | Main.BoxPlot => Some (RenderError "savefig failed")
                       | _ => None
                       end)
             None.

End Examples.

(** ** Counters of several logs *)

Module LossExtra.

Import Loss.
Local Open Scope Z_scope.

(** Field-wise sum of two sets of counters. *)
Definition add_totals (a b : Totals) : Totals :=
  mkTotals (total_sent a + total_sent b)
           (total_received a + total_received b)
           (total_dropped a + total_dropped b).

(** The line [verb ds packets], followed by [rest]. *)
Definition packet_line (verb : string) (ds : list ascii) (rest : string) : string :=
  (verb ++ " " ++ string_of_list_ascii ds ++ " packets" ++ rest)%string.

(** A data row of loss_statistics.csv: metric, count and rate in
    percent (the rate is kept exact; the file shows four decimals). *)
Record CsvRow : Type := mkCsvRow {
  metric : string;
  count : Z;
  rate : R
}.

(** The rows [save_loss_analysis] writes to loss_statistics.csv; there is
    no such file when [results] is an error string. *)
Definition loss_statistics (results : LossResult) : option (list CsvRow) :=
  match results with
  | LossError _ => None
  | LossStats sent recv dropped net_loss recv_loss total_loss =>
      Some [mkCsvRow "Total Sent" sent 100%R;
            mkCsvRow "Total Received" recv (IZR recv / IZR sent * 100)%R;
            mkCsvRow "Total Dropped" dropped (IZR dropped / IZR sent * 100)%R;
            mkCsvRow "Network Loss" (sent - recv) net_loss;
            mkCsvRow "Receiver Loss" dropped recv_loss;
            mkCsvRow "Total Loss" (sent - (recv - dropped)) total_loss]
  end.

(** The files [save_loss_analysis] creates in the output directory. *)
Definition save_loss_analysis (results : LossResult) : list string :=
  match results with
  | LossError _ => ["error_report.txt"%string]
  | LossStats _ _ _ _ _ _ =>
      ["loss_analysis_report.txt"%string; "loss_statistics.csv"%string]
  end.

End LossExtra.

(** ** File discovery: [find_default_log_file], [contains_valid_data]
       (loss_analyzer.py) and [find_load_balance_data]
       (load_balance_analyzer.py) *)

Module Files.

Import Loss.
Local Open Scope string_scope.
Local Open Scope Z_scope.

(** Python's [max(files, key=mtime)]: the first item whose key is maximal;
    [None] stands for the empty sequence. *)
Fixpoint max_by {A} (key : A -> Z) (l : list A) : option A :=
  match l with
  | [] => None
  | x :: rest =>
      match max_by key rest with
      | None => Some x
      | Some y => if key x <? key y then Some y else Some x
      end
  end.

(** A [*.log] file of the log directory: its name, its modification time
    and what reading it gives (its lines, or an exception). *)
Record LogFile : Type := mkLogFile {
  log_name : string;
  log_mtime : Z;
  log_read : result (list string)
}.

(** [file.read()] of a file with the given lines. *)
Definition file_content (lines : list string) : string := String.concat "" lines.

Definition valid_keywords : list string :=
  ["Summary: Sent"; "Received"; "Dropped"; "Sent"; "packets"; "Total"].

(** [contains_valid_data]: any exception while reading gives [False]. *)
Definition contains_valid_data (file : LogFile) : bool :=
  match log_read file with
  | Ok lines =>
      existsb (fun keyword => contains keyword (file_content lines))
              valid_keywords
  | Raise _ => false
  end.

Definition possible_files : list string :=
  ["sue-sim.log"; "sue-sim.log"; "app.log"].

(** The entry of the listing with the given name, which is what
    [file_path.exists() and file_path in log_files] selects. *)
Definition lookup_file (name : string) (log_files : list LogFile) : option LogFile :=
  find (fun f => String.eqb (log_name f) name) log_files.

(** The first preferred name that is listed and holds valid data. *)
Fixpoint first_preferred (names : list string) (log_files : list LogFile) : option string :=
  match names with
  | [] => None
  | name :: rest =>
      match lookup_file name log_files with
      | Some f => if contains_valid_data f then Some name
                  else first_preferred rest log_files
      | None => first_preferred rest log_files
      end
  end.

(** [find_default_log_file]; [log_dir] is [None] when the directory does
    not exist, else its [*.log] entries in the order of [glob]. *)
Definition find_default_log_file (log_dir : option (list LogFile)) : option string :=
  match log_dir with
  | None => None
  | Some log_files =>
      match first_preferred possible_files log_files with
      | Some name => Some name
      | None =>
          match find contains_valid_data log_files with
          | Some f => Some (log_name f)
          | None =>
              match max_by log_mtime log_files with
              | Some latest => Some (log_name latest)
              | None => None
              end
          end
      end
  end.

(** A [load_balance_*.csv] file of a data directory. *)
Record CsvFile : Type := mkCsvFile {
  csv_name : string;
  csv_mtime : Z
}.

(** For each directory path, [None] if it does not exist, else its entries
    matching [load_balance_*.csv]. *)
Definition FileSystem := string -> option (list CsvFile).

Definition possible_paths : list string :=
  ["performance-data/data/load_balance_logs";
   "data/load_balance_logs";
   "../data/load_balance_logs";
   "../performance-data/data/load_balance_logs"].

(** The loop [for path in possible_paths: if path.exists(): ...; break]. *)
Fixpoint first_existing (fs : FileSystem) (paths : list string) : option string :=
  match paths with
  | [] => None
  | path :: rest =>
      match fs path with
      | Some _ => Some path
      | None => first_existing fs rest
      end
  end.

(** [find_load_balance_data]: the directory chosen and the newest file in
    it.  The file system does not change during the call, so the final
    [exists()] test of the chosen file succeeds. *)
Definition find_load_balance_data (fs : FileSystem) : option (string * CsvFile) :=
  match first_existing fs possible_paths with
  | None => None
  | Some data_dir =>
      match fs data_dir with
      | None => None
      | Some load_balance_files =>
          match max_by csv_mtime load_balance_files with
          | None => None
          | Some load_balance_file => Some (data_dir, load_balance_file)
          end
      end
  end.

End Files.

(** ** The data behind the charts of load_balance_analyzer.py *)

Module Charts.

Import Frame Numpy PyFloat LoadBalance.
Local Open Scope string_scope.
Local Open Scope Z_scope.









(** Bar colours of [create_fairness_analysis]. *)
Inductive color : Type := green | orange | red.

(** [x < y] on floats. *)
Definition flt (x y : pyfloat) : bool := fgt y x.



Definition color_ratio (ratio : pyfloat) : color :=
  if flt ratio (Fin 1.5) then green
  else if flt ratio (Fin 2.0) then orange else red.

Definition color_score (score : pyfloat) : color :=
  if fgt score (Fin 80) then green
  else if fgt score (Fin 60) then orange else red.

(** [[f(metrics[xpu]) for xpu in local_xpus]] *)
Definition per_xpu {B} (f : Metrics -> B) (metrics : MetricsDict) : result (list B) :=
  for_each (fun xpu => m <- getitem metrics xpu ;; Ok (f m))
           (sorted (keys metrics)).



Definition colors_ratio (metrics : MetricsDict) : result (list color) :=
  per_xpu (fun m => color_ratio (max_min_ratio m)) metrics.

Definition colors_score (metrics : MetricsDict) : result (list color) :=
  per_xpu (fun m => color_score (overall_score m)) metrics.



End Charts.

(** ** The numbers written by [generate_analysis_report] *)

Module Report.

Import Frame Numpy PyFloat LoadBalance Charts.
Local Open Scope R_scope.




Inductive assessment : Type := EXCELLENT | GOOD | POOR.

Inductive recommendation : Type :=
| DifferentHashAlgorithm
| CheckHashSeeds
| MoreSueClients
| VerifyRegistration.

Definition assess (avg_cv avg_rsd avg_ratio : pyfloat) : assessment :=
  if flt avg_cv (Fin 0.1) && flt avg_rsd (Fin 10) && flt avg_ratio (Fin 1.5)
  then EXCELLENT
  else if flt avg_cv (Fin 0.2) && flt avg_rsd (Fin 20) && flt avg_ratio (Fin 2.0)
  then GOOD
  else POOR.

Definition recommend (avg_cv avg_rsd avg_ratio : pyfloat) : list recommendation :=
  (if fgt avg_cv (Fin 0.2) then [DifferentHashAlgorithm] else []) ++
  (if fgt avg_rsd (Fin 20) then [CheckHashSeeds] else []) ++
  (if fgt avg_ratio (Fin 2.0) then [MoreSueClients; VerifyRegistration] else []).



End Report.

(** ** A log replayed several times *)

Module Replay.

(** The rows of [l], [k] times over. *)
Definition replay {A} (k : nat) (l : list A) : list A :=
  List.concat (repeat l k).

End Replay.

Module MoreExamples.

Import Frame Files.

(** A log directory whose preferred file is unreadable or empty of data,
    with an older file that holds data. *)
Definition log_dir_mixed : list LogFile :=
  [mkLogFile "run.log" 5 (Ok ["boot"%string]);
   mkLogFile "sue-sim.log" 9 (Ok ["nothing here"%string]);
   mkLogFile "old.log" 1 (Ok ["XPU1 Port 2 Received 30 packets"%string])].

(** Only the second and the third candidate directory exist; the second is
    empty. *)
Definition fs_empty_first (path : string) : option (list CsvFile) :=
  if String.eqb path "data/load_balance_logs" then Some []
  else if String.eqb path "../data/load_balance_logs"
  then Some [mkCsvFile "load_balance_1.csv" 10]
  else None.

(** Five XPUs, so that the box plot has to leave one out. *)
Definition table_five : DataFrame :=
  [Examples.req 5 1; Examples.req 3 1; Examples.req 1 2; Examples.req 4 1;
   Examples.req 2 1; Examples.req 1 1; Examples.req 1 2].

End MoreExamples.

(** * Facts about the table operations *)

Section FrameFacts.

Import Frame.

Lemma unique_In (col : list Z) (x : Z) : In x (unique col) <-> In x col.
Proof.
  induction col as [|y rest IH]; simpl; [tauto|].
  rewrite filter_In, IH, negb_true_iff, Z.eqb_neq.
  destruct (Z.eq_dec y x); intuition congruence.
Qed.

Lemma NoDup_filter {A} (p : A -> bool) (l : list A) :
  NoDup l -> NoDup (filter p l).
Proof.
  induction 1 as [|x l Hx Hl IH]; simpl; [constructor|].
  destruct (p x); [constructor|]; auto.
  rewrite filter_In. tauto.
Qed.

Lemma unique_NoDup (col : list Z) : NoDup (unique col).
Proof.
  induction col as [|y rest IH]; simpl; constructor.
  - rewrite filter_In, Z.eqb_refl. simpl. intros [_ H]. discriminate.
  - now apply NoDup_filter.
Qed.


Lemma unique_nil_inv (col : list Z) : unique col = [] -> col = [].
Proof. destruct col; simpl; [reflexivity | discriminate]. Qed.

Section Sorting.

Context {A : Type} (key : A -> Z).

Lemma insert_by_Permutation (x : A) (l : list A) :
  Permutation (insert_by key x l) (x :: l).
Proof.
  induction l as [|y rest IH]; simpl; [reflexivity|].
  destruct (key x <=? key y); [reflexivity|].
  rewrite IH. apply perm_swap.
Qed.

Lemma sort_by_Permutation (l : list A) : Permutation (sort_by key l) l.
Proof.
  induction l as [|x rest IH]; simpl; [reflexivity|].
  unfold sort_by in IH. rewrite insert_by_Permutation. now constructor.
Qed.

Lemma insert_by_sorted (x : A) (l : list A) :
  StronglySorted (key_le key) l -> StronglySorted (key_le key) (insert_by key x l).
Proof.
  induction 1 as [|y rest Hs IH Hy]; simpl.
  - repeat constructor.
  - destruct (key x <=? key y) eqn:E.
    + apply Z.leb_le in E. constructor; [now constructor|].
      constructor; [exact E|].
      eapply Forall_impl; [|exact Hy]. unfold key_le. intros; lia.
    + apply Z.leb_gt in E. constructor; [exact IH|].
      eapply Permutation_Forall;
        [apply Permutation_sym, insert_by_Permutation|].
      constructor; [unfold key_le; lia | exact Hy].
Qed.

Lemma sort_by_sorted (l : list A) : StronglySorted (key_le key) (sort_by key l).
Proof.
  induction l as [|x rest IH]; simpl; [constructor|].
  now apply insert_by_sorted.
Qed.

Lemma NoDup_map_inj (l : list A) (a b : A) :
  NoDup (map key l) -> In a l -> In b l -> key a = key b -> a = b.
Proof.
  induction l as [|x rest IH]; simpl; [tauto|].
  intros Hnd [Ha|Ha] [Hb|Hb] Hk; inversion Hnd as [|? ? Hx Hrest]; subst.
  - reflexivity.
  - exfalso. apply Hx. rewrite Hk. now apply in_map.
  - exfalso. apply Hx. rewrite <- Hk. now apply in_map.
  - now apply IH.
Qed.

(** A list sorted on pairwise distinct keys is determined by its elements. *)
Lemma sorted_Permutation_eq (l1 l2 : list A) :
  StronglySorted (key_le key) l1 -> StronglySorted (key_le key) l2 ->
  NoDup (map key l1) -> Permutation l1 l2 -> l1 = l2.
Proof.
  intros H1. revert l2.
  induction H1 as [|a t1 Hs1 IH Ha]; intros l2 H2 Hnd HP.
  - now apply Permutation_nil in HP.
  - destruct H2 as [|b t2 Hs2 Hb].
    + apply Permutation_sym, Permutation_nil in HP. discriminate.
    + assert (Hab : a = b).
      { assert (Hin_a : In a (b :: t2))
          by (eapply Permutation_in; [exact HP | now left]).
        assert (Hin_b : In b (a :: t1))
          by (eapply Permutation_in; [apply Permutation_sym, HP | now left]).
        apply (NoDup_map_inj (a :: t1)); auto; [now left|].
        rewrite Forall_forall in Ha, Hb. unfold key_le in *.
        destruct Hin_a as [->|Hin_a]; [reflexivity|].
        destruct Hin_b as [<-|Hin_b]; [reflexivity|].
        specialize (Ha _ Hin_b). specialize (Hb _ Hin_a). lia. }
      subst b. f_equal. apply IH; auto.
      * simpl in Hnd. now inversion Hnd.
      * now apply Permutation_cons_inv in HP.
Qed.

Lemma sort_by_perm_invariant (l1 l2 : list A) :
  NoDup (map key l1) -> Permutation l1 l2 -> sort_by key l1 = sort_by key l2.
Proof.
  intros Hnd HP. apply sorted_Permutation_eq; auto using sort_by_sorted.
  - eapply Permutation_NoDup; [|exact Hnd].
    apply Permutation_map, Permutation_sym, sort_by_Permutation.
  - rewrite sort_by_Permutation, HP. apply Permutation_sym, sort_by_Permutation.
Qed.

End Sorting.

End FrameFacts.

Section CountFacts.

Import Frame Spec.



Lemma occurrences_nonneg (v : Z) (col : list Z) : 0 <= occurrences v col.
Proof. unfold occurrences. lia. Qed.

Lemma occurrences_cons (v x : Z) (col : list Z) :
  occurrences v (x :: col) = (if x =? v then 1 else 0) + occurrences v col.
Proof.
  unfold occurrences. cbn [filter].
  destruct (x =? v); cbn [List.length]; lia.
Qed.

Lemma occurrences_pos (v : Z) (col : list Z) :
  In v col -> 1 <= occurrences v col.
Proof.
  induction col as [|x rest IH]; simpl; [tauto|].
  rewrite occurrences_cons. intros [->|Hin].
  - rewrite Z.eqb_refl. pose proof (occurrences_nonneg v rest). lia.
  - specialize (IH Hin). destruct (x =? v); lia.
Qed.

Lemma zsum_app (l1 l2 : list Z) : zsum (l1 ++ l2) = zsum l1 + zsum l2.
Proof. induction l1; simpl; lia. Qed.

Lemma zsum_Permutation (l1 l2 : list Z) :
  Permutation l1 l2 -> zsum l1 = zsum l2.
Proof. induction 1; simpl; lia. Qed.

(** Exactly one entry of a duplicate-free list equals a given member. *)
Lemma zsum_indicator (x : Z) (L : list Z) :
  NoDup L -> In x L -> zsum (map (fun v => if x =? v then 1 else 0) L) = 1.
Proof.
  induction 1 as [|y L Hy Hnd IH]; simpl; [tauto|].
  intros [->|Hin].
  - rewrite Z.eqb_refl.
    assert (Hz : zsum (map (fun v => if x =? v then 1 else 0) L) = 0).
    { clear IH Hnd. induction L as [|z L IHL]; simpl; [reflexivity|].
      destruct (Z.eqb_spec x z) as [->|_].
      - exfalso. apply Hy. now left.
      - apply IHL. intros H. apply Hy. now right. }
    lia.
  - destruct (Z.eqb_spec x y) as [->|_]; [contradiction|].
    rewrite IH; auto.
Qed.

(** Counting every value once accounts for every entry of the column. *)
Lemma zsum_occurrences (col L : list Z) :
  NoDup L -> (forall x, In x col -> In x L) ->
  zsum (map (fun v => occurrences v col) L) = len col.
Proof.
  intros Hnd. induction col as [|x rest IH]; intros Hcov.
  - unfold occurrences, len. simpl.
    clear Hnd Hcov. induction L; simpl; auto.
  - assert (Hsplit :
      zsum (map (fun v => occurrences v (x :: rest)) L) =
      zsum (map (fun v => if x =? v then 1 else 0) L) +
      zsum (map (fun v => occurrences v rest) L)).
    { clear. induction L as [|y L IHL]; simpl; [reflexivity|].
      rewrite occurrences_cons, IHL. lia. }
    rewrite Hsplit, zsum_indicator, IH; auto.
    + unfold len. cbn [List.length]. lia.
    + intros y Hy. apply Hcov. now right.
    + apply Hcov. now left.
Qed.

End CountFacts.

(** * Facts about the grouped counts and the numpy reductions *)

Section SeriesFacts.

Import Frame Spec.

Variable col : list Z.

Let entries := map (fun v => (v, occurrences v col)) (unique col).

Lemma value_counts_Permutation : Permutation (value_counts col) entries.
Proof. unfold value_counts. apply sort_by_Permutation. Qed.

Lemma sue_counts_Permutation :
  Permutation (sort_index (value_counts col)) entries.
Proof.
  unfold sort_index. rewrite sort_by_Permutation.
  apply value_counts_Permutation.
Qed.

Lemma entries_keys : map fst entries = unique col.
Proof.
  unfold entries. rewrite map_map. simpl. apply map_id.
Qed.


Lemma sue_counts_keys_NoDup : NoDup (map fst (sort_index (value_counts col))).
Proof.
  eapply Permutation_NoDup.
  - apply Permutation_map, Permutation_sym, sue_counts_Permutation.
  - rewrite entries_keys. apply unique_NoDup.
Qed.

Lemma sue_counts_entry (t c : Z) :
  In (t, c) (sort_index (value_counts col)) <->
  In t col /\ c = occurrences t col.
Proof.
  split.
  - intros Hin.
    eapply Permutation_in in Hin; [|apply sue_counts_Permutation].
    unfold entries in Hin. apply in_map_iff in Hin.
    destruct Hin as [v [Hv Hin]]. inversion Hv; subst.
    split; [now apply unique_In | reflexivity].
  - intros [Hin ->].
    eapply Permutation_in; [apply Permutation_sym, sue_counts_Permutation|].
    unfold entries. apply in_map_iff. exists t. split; [reflexivity|].
    now apply unique_In.
Qed.

Lemma sue_counts_positive :
  Forall (fun c => 1 <= c) (map snd (sort_index (value_counts col))).
Proof.
  apply Forall_forall. intros c Hin. apply in_map_iff in Hin.
  destruct Hin as [[t c'] [Hc Hin]]. simpl in Hc. subst c'.
  apply sue_counts_entry in Hin. destruct Hin as [Hin ->].
  now apply occurrences_pos.
Qed.

Lemma sue_counts_total :
  zsum (map snd (sort_index (value_counts col))) = len col.
Proof.
  rewrite (zsum_Permutation _ (map snd entries)).
  - unfold entries. rewrite map_map. simpl.
    apply zsum_occurrences; [apply unique_NoDup|].
    intros x. apply unique_In.
  - apply Permutation_map, sue_counts_Permutation.
Qed.

Lemma sue_counts_nonempty :
  col <> [] -> map snd (sort_index (value_counts col)) <> [].
Proof.
  intros Hne Hnil. apply Hne.
  pose proof sue_counts_total as Htot. rewrite Hnil in Htot. simpl in Htot.
  unfold len in Htot. destruct col; [reflexivity | simpl in Htot; lia].
Qed.

End SeriesFacts.


Section NumpyFacts.

Import Frame Spec Numpy.

Lemma amin_spec (a : list Z) :
  a <> [] -> exists lo, amin a = Ok lo /\ In lo a /\ Forall (fun x => lo <= x) a.
Proof.
  induction a as [|x rest IH]; [congruence|]. intros _.
  destruct rest as [|y rest'].
  - exists x. simpl. repeat split; auto. constructor; [lia | constructor].
  - destruct IH as [lo [Hlo [Hin Hall]]]; [discriminate|].
    exists (Z.min x lo). cbn [amin]. cbn [amin] in Hlo. rewrite Hlo.
    repeat split.
    + destruct (Z.min_spec x lo) as [[_ ->]|[_ ->]]; [now left | now right].
    + constructor; [lia|].
      eapply Forall_impl; [|exact Hall]. simpl. intros; lia.
Qed.

Lemma amax_spec (a : list Z) :
  a <> [] -> exists hi, amax a = Ok hi /\ In hi a /\ Forall (fun x => x <= hi) a.
Proof.
  induction a as [|x rest IH]; [congruence|]. intros _.
  destruct rest as [|y rest'].
  - exists x. simpl. repeat split; auto. constructor; [lia | constructor].
  - destruct IH as [hi [Hhi [Hin Hall]]]; [discriminate|].
    exists (Z.max x hi). cbn [amax]. cbn [amax] in Hhi. rewrite Hhi.
    repeat split.
    + destruct (Z.max_spec x hi) as [[_ ->]|[_ ->]]; [now right | now left].
    + constructor; [lia|].
      eapply Forall_impl; [|exact Hall]. simpl. intros; lia.
Qed.

Lemma fold_min_spec (d : Z) (a : list Z) :
  (fold_right Z.min d a = d \/ In (fold_right Z.min d a) a) /\
  fold_right Z.min d a <= d /\
  Forall (fun x => fold_right Z.min d a <= x) a.
Proof.
  induction a as [|x rest [Hin [Hd Hall]]]; simpl.
  - repeat split; auto. lia.
  - repeat split.
    + destruct (Z.min_spec x (fold_right Z.min d rest)) as [[_ ->]|[_ ->]];
        [right; now left | destruct Hin; auto].
    + lia.
    + constructor; [lia|].
      eapply Forall_impl; [|exact Hall]. simpl. intros; lia.
Qed.

Lemma fold_max_spec (d : Z) (a : list Z) :
  (fold_right Z.max d a = d \/ In (fold_right Z.max d a) a) /\
  d <= fold_right Z.max d a /\
  Forall (fun x => x <= fold_right Z.max d a) a.
Proof.
  induction a as [|x rest [Hin [Hd Hall]]]; simpl.
  - repeat split; auto. lia.
  - repeat split.
    + destruct (Z.max_spec x (fold_right Z.max d rest)) as [[_ ->]|[_ ->]];
        [destruct Hin; auto | right; now left].
    + lia.
    + constructor; [lia|].
      eapply Forall_impl; [|exact Hall]. simpl. intros; lia.
Qed.

Lemma zmin_spec (a : list Z) :
  a <> [] -> In (zmin a) a /\ Forall (fun x => zmin a <= x) a.
Proof.
  destruct a as [|x rest]; [congruence|]. intros _.
  unfold zmin. cbn [hd].
  destruct (fold_min_spec x (x :: rest)) as [[Heq|Hin] [_ Hall]]; split; auto.
  rewrite Heq. now left.
Qed.

Lemma zmax_spec (a : list Z) :
  a <> [] -> In (zmax a) a /\ Forall (fun x => x <= zmax a) a.
Proof.
  destruct a as [|x rest]; [congruence|]. intros _.
  unfold zmax. cbn [hd].
  destruct (fold_max_spec x (x :: rest)) as [[Heq|Hin] [_ Hall]]; split; auto.
  rewrite Heq. now left.
Qed.

Lemma amin_zmin (a : list Z) : a <> [] -> amin a = Ok (zmin a).
Proof.
  intros Hne. destruct (amin_spec a Hne) as [lo [-> [Hin Hall]]].
  destruct (zmin_spec a Hne) as [Hin' Hall']. f_equal.
  rewrite Forall_forall in Hall, Hall'.
  specialize (Hall _ Hin'). specialize (Hall' _ Hin). lia.
Qed.

Lemma amax_zmax (a : list Z) : a <> [] -> amax a = Ok (zmax a).
Proof.
  intros Hne. destruct (amax_spec a Hne) as [hi [-> [Hin Hall]]].
  destruct (zmax_spec a Hne) as [Hin' Hall']. f_equal.
  rewrite Forall_forall in Hall, Hall'.
  specialize (Hall _ Hin'). specialize (Hall' _ Hin). lia.
Qed.

Lemma zmin_le_zmax (a : list Z) : a <> [] -> zmin a <= zmax a.
Proof.
  intros Hne. destruct (zmin_spec a Hne) as [Hin _].
  destruct (zmax_spec a Hne) as [_ Hall].
  rewrite Forall_forall in Hall. now apply Hall.
Qed.

Lemma zmin_positive (a : list Z) :
  a <> [] -> Forall (fun c => 1 <= c) a -> 1 <= zmin a.
Proof.
  intros Hne Hall. destruct (zmin_spec a Hne) as [Hin _].
  rewrite Forall_forall in Hall. now apply Hall.
Qed.

Lemma zsum_positive (a : list Z) :
  a <> [] -> Forall (fun c => 1 <= c) a -> 1 <= zsum a.
Proof.
  intros Hne Hall. induction Hall as [|x rest Hx Hrest IH]; [congruence|].
  simpl. destruct rest as [|y rest'].
  - simpl. lia.
  - assert (1 <= zsum (y :: rest')) by (apply IH; discriminate). lia.
Qed.

Lemma len_positive {A} (l : list A) : l <> [] -> 0 < len l.
Proof.
  destruct l; [congruence|]. intros _. unfold len. cbn [List.length]. lia.
Qed.

Local Open Scope R_scope.

Lemma rsum_as_float (a : list Z) : rsum (as_float a) = IZR (zsum a).
Proof.
  unfold as_float, rsum, zsum.
  induction a as [|x rest IH]; simpl; [reflexivity|].
  now rewrite plus_IZR, IH.
Qed.

Lemma mean_as_float (a : list Z) : mean (as_float a) = mean_count a.
Proof.
  unfold mean, mean_count, len. rewrite rsum_as_float.
  unfold as_float. now rewrite length_map, INR_IZR_INZ.
Qed.

Lemma rsum_sq_dev (mu : R) (a : list Z) :
  rsum (map (fun x => Rsqr (Rabs (x - mu))) (as_float a)) = sum_sq_dev mu a.
Proof.
  unfold as_float, rsum.
  induction a as [|x rest IH]; simpl; [reflexivity|].
  rewrite IH, <- Rsqr_abs. unfold Rsqr. ring.
Qed.

(** [np.std] of an integer array is the population standard deviation. *)
Lemma std_as_float (a : list Z) : std (as_float a) = population_std_dev a.
Proof.
  unfold std, population_std_dev. f_equal.
  unfold mean at 1. rewrite mean_as_float, rsum_sq_dev.
  unfold as_float, len. now rewrite !length_map, INR_IZR_INZ.
Qed.

Lemma std_nonneg (a : list R) : 0 <= std a.
Proof. unfold std. apply sqrt_pos. Qed.

Lemma mean_count_positive (a : list Z) :
  a <> [] -> Forall (fun c => (1 <= c)%Z) a -> 0 < mean_count a.
Proof.
  intros Hne Hall. unfold mean_count.
  apply Rdiv_lt_0_compat; apply IZR_lt.
  - pose proof (zsum_positive a Hne Hall). lia.
  - now apply len_positive.
Qed.

End NumpyFacts.

(** * The metrics calculator on a table *)

Section CalculatorFacts.

Import Frame Spec Numpy PyFloat LoadBalance.

Lemma for_each_ok {A B} (body : A -> result B) (xs : list A) :
  (forall x, In x xs -> exists y, body x = Ok y) ->
  exists ys, for_each body xs = Ok ys /\
             Forall2 (fun x y => body x = Ok y) xs ys.
Proof.
  induction xs as [|x rest IH]; intros Hall; simpl.
  - exists []. split; [reflexivity | constructor].
  - destruct (Hall x) as [y Hy]; [now left|].
    destruct IH as [ys [Hys HF]]; [intros z Hz; apply Hall; now right|].
    exists (y :: ys). rewrite Hy, Hys. simpl. split; [reflexivity|].
    now constructor.
Qed.

Lemma select_local_nonempty (df : DataFrame) (x : Z) :
  In x (map LocalXpuId df) -> map SueId (select_local df x) <> [].
Proof.
  intros Hin. apply in_map_iff in Hin. destruct Hin as [r [Hr Hin]].
  assert (Hsel : In r (select_local df x)).
  { unfold select_local. apply filter_In. split; [exact Hin|].
    now apply Z.eqb_eq. }
  intros Hnil. apply map_eq_nil in Hnil. rewrite Hnil in Hsel. contradiction.
Qed.

Lemma len_map {A B} (f : A -> B) (l : list A) : len (map f l) = len l.
Proof. unfold len. now rewrite length_map. Qed.

(** The record computed for an XPU that occurs in the table: no reduction
    raises and every guard takes its first branch. *)
Lemma xpu_metrics_present (df : DataFrame) (x : Z) :
  In x (map LocalXpuId df) ->
  let sc := sort_index (value_counts (map SueId (select_local df x))) in
  let counts := map snd sc in
  let total := len (select_local df x) in
  xpu_metrics df x =
  Ok {| total_requests := total;
        num_sues := len sc;
        ideal_per_sue := (IZR total / IZR (len sc))%R;
        cv := (std (as_float counts) / mean (as_float counts))%R;
        max_min_ratio := Fin (IZR (zmax counts) / IZR (zmin counts));
        rsd := (std (as_float counts) / (IZR total / IZR (len sc)) * 100)%R;
        sue_counts := sc |}.
Proof.
  intros Hin sc counts total.
  pose proof (select_local_nonempty df x Hin) as Hcol.
  pose proof (sue_counts_nonempty _ Hcol) as Hne.
  pose proof (sue_counts_positive (map SueId (select_local df x))) as Hpos.
  pose proof (sue_counts_total (map SueId (select_local df x))) as Htot.
  fold sc in Hne, Hpos, Htot. fold counts in Hne, Hpos, Htot.
  rewrite len_map in Htot. fold total in Htot.
  assert (Hnum : 0 < len sc).
  { rewrite <- (len_map snd). now apply len_positive. }
  assert (Htotal : 0 < total).
  { pose proof (zsum_positive counts Hne Hpos). lia. }
  unfold xpu_metrics, ideal_per_sue_of, cv_of, max_min_ratio_of, rsd_of.
  fold sc. fold counts. fold total.
  destruct (Z.ltb_spec 0 (len sc)) as [_|]; [|lia].
  rewrite (amin_zmin counts Hne). cbn [bind].
  pose proof (zmin_positive counts Hne Hpos) as Hmin.
  destruct (Z.ltb_spec 0 (zmin counts)) as [_|]; [|lia].
  rewrite (amax_zmax counts Hne). cbn [bind].
  destruct (Rlt_dec 0 (mean (as_float counts))) as [_|Hn].
  2:{ exfalso. apply Hn. rewrite mean_as_float.
      now apply mean_count_positive. }
  destruct (Rlt_dec 0 (IZR total / IZR (len sc))) as [_|Hn].
  2:{ exfalso. apply Hn. apply Rdiv_lt_0_compat; now apply IZR_lt. }
  reflexivity.
Qed.

Lemma calculate_ok (df : DataFrame) :
  exists ms,
    calculate_load_balance_metrics df = Ok ms /\
    keys ms = sorted (unique (map LocalXpuId df)) /\
    Forall (fun km => xpu_metrics df (fst km) = Ok (snd km)) ms.
Proof.
  unfold calculate_load_balance_metrics.
  destruct (for_each_ok
              (fun local_xpu => m <- xpu_metrics df local_xpu ;; Ok (local_xpu, m))
              (sorted (unique (map LocalXpuId df)))) as [ms [Hms HF]].
  - intros x Hx.
    assert (Hin : In x (map LocalXpuId df)).
    { apply unique_In. eapply Permutation_in; [|exact Hx].
      apply sort_by_Permutation. }
    rewrite (xpu_metrics_present df x Hin). simpl. eauto.
  - exists ms. split; [exact Hms|]. clear Hms.
    induction HF as [|x km xs ms' Hx HF IH]; [split; constructor|].
    destruct IH as [Hk Hall].
    destruct (xpu_metrics df x) as [m|e] eqn:E; simpl in Hx; [|discriminate].
    inversion Hx; subst km. unfold keys in *. simpl. split.
    + now rewrite Hk.
    + constructor; [exact E | exact Hall].
Qed.

Lemma keys_NoDup (df : DataFrame) :
  NoDup (sorted (unique (map LocalXpuId df))).
Proof.
  eapply Permutation_NoDup; [apply Permutation_sym, sort_by_Permutation|].
  apply unique_NoDup.
Qed.

Lemma keys_In (df : DataFrame) (x : Z) :
  In x (sorted (unique (map LocalXpuId df))) <-> In x (map LocalXpuId df).
Proof.
  unfold sorted. split; intros H.
  - apply unique_In.
    exact (Permutation_in x (sort_by_Permutation _ _) H).
  - apply unique_In in H.
    exact (Permutation_in x (Permutation_sym (sort_by_Permutation _ _)) H).
Qed.

Lemma getitem_In (d : MetricsDict) (k : Z) (m : Metrics) :
  NoDup (keys d) -> In (k, m) d -> getitem d k = Ok m.
Proof.
  induction d as [|[k' m'] rest IH]; simpl; [tauto|].
  intros Hnd [Heq|Hin]; inversion Hnd as [|? ? Hk Hrest]; subst.
  - inversion Heq; subst. now rewrite Z.eqb_refl.
  - destruct (Z.eqb_spec k' k) as [->|_].
    + exfalso. apply Hk. change k with (fst (k, m)). now apply in_map.
    + now apply IH.
Qed.

Lemma getitem_Ok_In (d : MetricsDict) (k : Z) (m : Metrics) :
  getitem d k = Ok m -> In (k, m) d.
Proof.
  induction d as [|[k' m'] rest IH]; simpl; [discriminate|].
  destruct (Z.eqb_spec k' k) as [->|_].
  - intros H. inversion H. now left.
  - intros H. right. now apply IH.
Qed.

(** Every XPU of the table has its record in the dictionary. *)
Lemma metrics_present (df : DataFrame) (x : Z) :
  In x (map LocalXpuId df) ->
  exists ms m,
    calculate_load_balance_metrics df = Ok ms /\
    getitem ms x = Ok m /\
    xpu_metrics df x = Ok m.
Proof.
  intros Hin. destruct (calculate_ok df) as [ms [Hms [Hk Hall]]].
  assert (Hx : In x (keys ms)) by (rewrite Hk; now apply keys_In).
  unfold keys in Hx. apply in_map_iff in Hx. destruct Hx as [[k m] [Hkx Hkm]].
  simpl in Hkx. subst k.
  exists ms, m. split; [exact Hms|]. split.
  - apply getitem_In; [|exact Hkm]. rewrite Hk. apply keys_NoDup.
  - rewrite Forall_forall in Hall. apply (Hall _ Hkm).
Qed.

End CalculatorFacts.

Section RecordFacts.

Import Frame Spec Numpy PyFloat LoadBalance Invariant.

Lemma occurrences_target_count (df : DataFrame) (x t : Z) :
  occurrences t (map SueId (select_local df x)) = target_count df x t.
Proof.
  unfold occurrences, target_count, select_local, len. f_equal.
  induction df as [|r rest IH]; simpl; [reflexivity|].
  destruct (LocalXpuId r =? x); simpl; [|exact IH].
  destruct (SueId r =? t); simpl; now rewrite IH.
Qed.

Lemma regular_present (df : DataFrame) (x : Z) (m : Metrics) :
  In x (map LocalXpuId df) ->
  xpu_metrics df x = Ok m ->
  Regular m /\
  sue_counts m = sort_index (value_counts (map SueId (select_local df x))) /\
  total_requests m = len (select_local df x).
Proof.
  intros Hin Hm.
  pose proof (xpu_metrics_present df x Hin) as Hexp. cbv zeta in Hexp.
  rewrite Hexp in Hm. inversion Hm as [Heq]. clear Hm Hexp.
  pose proof (select_local_nonempty df x Hin) as Hcol.
  pose proof (sue_counts_nonempty _ Hcol) as Hne.
  pose proof (sue_counts_positive (map SueId (select_local df x))) as Hpos.
  pose proof (sue_counts_total (map SueId (select_local df x))) as Htot.
  rewrite len_map in Htot.
  set (sc := sort_index (value_counts (map SueId (select_local df x)))) in *.
  assert (Hnum : 0 < len sc).
  { rewrite <- (len_map snd). now apply len_positive. }
  assert (Hmean : (0 < mean (as_float (map snd sc)))%R).
  { rewrite mean_as_float. now apply mean_count_positive. }
  split; [|split; reflexivity].
  constructor; unfold actual_counts; cbn [sue_counts total_requests num_sues
    ideal_per_sue cv max_min_ratio rsd]; auto.
  - pose proof (zmin_positive _ Hne Hpos). lia.
  - apply Rdiv_lt_0_compat; apply IZR_lt; [|exact Hnum].
    pose proof (zsum_positive _ Hne Hpos). lia.
Qed.

(** Every record of the dictionary belongs to an XPU of the table and is
    the one [xpu_metrics] computes for it. *)
Lemma metrics_member (df : DataFrame) (ms : MetricsDict) (x : Z) (m : Metrics) :
  calculate_load_balance_metrics df = Ok ms ->
  In (x, m) ms ->
  In x (map LocalXpuId df) /\ xpu_metrics df x = Ok m.
Proof.
  intros Hms Hin. destruct (calculate_ok df) as [ms' [Hms' [Hk Hall]]].
  rewrite Hms in Hms'. inversion Hms'; subst ms'. split.
  - apply keys_In. rewrite <- Hk. unfold keys.
    change x with (fst (x, m)). now apply in_map.
  - rewrite Forall_forall in Hall. apply (Hall _ Hin).
Qed.

End RecordFacts.

(** * Grouping: conservation, keys, independence of the row order *)

Section Grouping.

Import Frame Spec Numpy PyFloat LoadBalance Invariant.

Lemma for_each_ext {A B} (f g : A -> result B) (xs : list A) :
  (forall x, In x xs -> f x = g x) -> for_each f xs = for_each g xs.
Proof.
  induction xs as [|x rest IH]; intros Hfg; simpl; [reflexivity|].
  rewrite (Hfg x) by now left.
  rewrite IH; [reflexivity|]. intros y Hy. apply Hfg. now right.
Qed.








Lemma calculate_regular (df : DataFrame) :
  exists ms,
    calculate_load_balance_metrics df = Ok ms /\
    Forall (fun km => Regular (snd km)) ms.
Proof.
  destruct (calculate_ok df) as [ms [Hms _]].
  exists ms. split; [exact Hms|].
  apply Forall_forall. intros [x m] Hin.
  destruct (metrics_member df ms x m Hms Hin) as [Hx Hm].
  apply (regular_present df x m Hx Hm).
Qed.


End Grouping.

(** * The dispersion statistics *)

Section Dispersion.

Import Frame Spec Numpy PyFloat LoadBalance Invariant.
Local Open Scope R_scope.




Lemma ratio_at_least_one (lo hi : Z) :
  (0 < lo)%Z -> (lo <= hi)%Z -> 1 <= IZR hi / IZR lo.
Proof.
  intros Hlo Hle. apply IZR_lt in Hlo. apply IZR_le in Hle.
  apply Rmult_le_reg_r with (IZR lo); [exact Hlo|].
  unfold Rdiv. rewrite Rmult_assoc, Rinv_l; lra.
Qed.










End Dispersion.

(** * The composite fairness score *)

Section Scoring.

Import Frame Spec Numpy PyFloat LoadBalance Invariant.
Local Open Scope R_scope.

Lemma py_max_zero_fin (b : R) : py_max (Fin 0) (Fin b) = Fin (Rmax 0 b).
Proof.
  unfold py_max, fgt. destruct (Rlt_dec 0 b) as [Hlt|Hnlt]; f_equal.
  - rewrite Rmax_right; lra.
  - rewrite Rmax_left; lra.
Qed.

Lemma sub_score_fin (v w : R) :
  py_max (Fin 0) (fsub (Fin 100) (fmul (Fin v) (Fin w))) =
  Fin (Rmax 0 (100 - v * w)).
Proof. cbn [fmul fsub fneg fadd]. now rewrite py_max_zero_fin. Qed.

Lemma ratio_score_fin (m : Metrics) (r : R) :
  max_min_ratio m = Fin r ->
  ratio_score m = Fin (Rmax 0 (100 - (r - 1) * 50)).
Proof.
  intros Hr. unfold ratio_score. rewrite Hr.
  cbn [fmul fsub fneg fadd]. now rewrite py_max_zero_fin.
Qed.

(** An infinite ratio scores 0: [100 - inf] is [-inf], and [max(0, -inf)]
    is 0. *)
Lemma ratio_score_inf (m : Metrics) :
  max_min_ratio m = PInf -> ratio_score m = Fin 0.
Proof.
  intros Hr. unfold ratio_score. rewrite Hr.
  cbn [fsub fneg fadd fmul]. unfold inf_times.
  destruct (Rlt_dec 0 50) as [_|Hn]; [reflexivity | exfalso; lra].
Qed.

(** Counts of 100 and 1 give the ratio 100, whose sub-score is clamped
    to 0. *)
Lemma ratio_score_skewed (m : Metrics) :
  max_min_ratio m = Fin 100 -> ratio_score m = Fin 0.
Proof.
  intros Hr. rewrite (ratio_score_fin m 100 Hr). f_equal.
  rewrite Rmax_left; lra.
Qed.

Lemma overall_score_fin (m : Metrics) (r : R) :
  max_min_ratio m = Fin r ->
  overall_score m =
  Fin ((Rmax 0 (100 - cv m * 500) + Rmax 0 (100 - rsd m * 2.5) +
        Rmax 0 (100 - (r - 1) * 50)) / 3).
Proof.
  intros Hr. unfold overall_score, cv_score, rsd_score.
  rewrite (ratio_score_fin m r Hr), !sub_score_fin. reflexivity.
Qed.

Lemma clamp_range (y : R) : 0 <= y -> 0 <= Rmax 0 (100 - y) <= 100.
Proof.
  intros Hy. unfold Rmax. destruct (Rle_dec 0 (100 - y)); lra.
Qed.

Lemma regular_cv_nonneg (m : Metrics) : Regular m -> 0 <= cv m.
Proof.
  intros Hreg. rewrite (cv_value m Hreg). unfold Rdiv.
  apply Rmult_le_pos; [apply std_nonneg|].
  left. apply Rinv_0_lt_compat, (mean_positive m Hreg).
Qed.

Lemma regular_rsd_nonneg (m : Metrics) : Regular m -> 0 <= rsd m.
Proof.
  intros Hreg. rewrite (rsd_value m Hreg). unfold Rdiv.
  apply Rmult_le_pos; [|lra].
  apply Rmult_le_pos; [apply std_nonneg|].
  left. apply Rinv_0_lt_compat, (ideal_positive m Hreg).
Qed.

Lemma regular_score_range (m : Metrics) :
  Regular m -> scored_within_bounds m (overall_score m).
Proof.
  intros Hreg.
  pose proof (regular_cv_nonneg m Hreg) as Hcv.
  pose proof (regular_rsd_nonneg m Hreg) as Hrsd.
  pose proof (ratio_value m Hreg) as Hr.
  assert (Hge : 1 <= IZR (zmax (actual_counts m)) / IZR (zmin (actual_counts m))).
  { apply ratio_at_least_one; [apply (min_positive m Hreg)|].
    apply zmin_le_zmax, (counts_nonempty m Hreg). }
  set (r := IZR (zmax (actual_counts m)) / IZR (zmin (actual_counts m))) in *.
  exists (Rmax 0 (100 - cv m * 500)), (Rmax 0 (100 - rsd m * 2.5)),
         (Rmax 0 (100 - (r - 1) * 50)).
  pose proof (clamp_range (cv m * 500)) as Ha.
  pose proof (clamp_range (rsd m * 2.5)) as Hb.
  pose proof (clamp_range ((r - 1) * 50)) as Hc.
  repeat split;
    try (unfold cv_score, rsd_score; apply sub_score_fin);
    try (now apply ratio_score_fin);
    try (now apply overall_score_fin);
    lra.
Qed.

Lemma sorted_idempotent (l : list Z) : NoDup l -> sorted (sorted l) = sorted l.
Proof.
  intros Hnd. unfold sorted. apply sort_by_perm_invariant.
  - rewrite map_id. eapply Permutation_NoDup; [|exact Hnd].
    apply Permutation_sym, sort_by_Permutation.
  - apply sort_by_Permutation.
Qed.

Lemma for_each_getitem {B} (d : MetricsDict) (f : Z -> Metrics -> B)
      (part : MetricsDict) :
  (forall k m, In (k, m) part -> getitem d k = Ok m) ->
  for_each (fun k => m <- getitem d k ;; Ok (f k m)) (keys part) =
  Ok (map (fun km => f (fst km) (snd km)) part).
Proof.
  induction part as [|[k m] rest IH]; intros Hget; [reflexivity|].
  cbn [keys map for_each fst snd].
  rewrite (Hget k m) by now left. cbn [bind].
  fold (keys rest). rewrite IH; [reflexivity|].
  intros k' m' Hin. apply Hget. now right.
Qed.

(** The scoring loop visits the records in key order and never fails on a
    dictionary built by the calculator. *)
Lemma fairness_scores_calculated (df : DataFrame) (ms : MetricsDict) :
  calculate_load_balance_metrics df = Ok ms ->
  fairness_scores ms = Ok (map (fun km => (fst km, overall_score (snd km))) ms).
Proof.
  intros Hms. destruct (calculate_ok df) as [ms' [Hms' [Hk _]]].
  rewrite Hms in Hms'. inversion Hms'; subst ms'.
  unfold fairness_scores.
  assert (Hsorted : sorted (keys ms) = keys ms).
  { rewrite Hk. apply sorted_idempotent, unique_NoDup. }
  rewrite Hsorted.
  apply (for_each_getitem ms (fun k m => (k, overall_score m)) ms).
  intros k m Hin. apply getitem_In; [|exact Hin].
  rewrite Hk. apply keys_NoDup.
Qed.

(** C1: on every table the calculator and the scoring loop return, there
    is one composite score per record, and each is the average of three
    finite sub-scores lying in [0, 100], hence itself a finite value in
    [0, 100]. *)
Theorem C1_composite_score_in_range (df : DataFrame) :
  exists ms scores,
    calculate_load_balance_metrics df = Ok ms /\
    fairness_scores ms = Ok scores /\
    Forall2 (fun km ks => fst ks = fst km /\
                          snd ks = overall_score (snd km) /\
                          scored_within_bounds (snd km) (snd ks))
            ms scores.
Proof.
  destruct (calculate_regular df) as [ms [Hms Hreg]].
  exists ms, (map (fun km => (fst km, overall_score (snd km))) ms).
  split; [exact Hms|]. split; [now apply (fairness_scores_calculated df)|].
  clear Hms. induction Hreg as [|km rest Hkm Hrest IH]; simpl; constructor.
  - simpl. repeat split. now apply regular_score_range.
  - exact IH.
Qed.

End Scoring.

(** * Perfectly even groups *)

Section EvenGroups.

Import Frame Spec Numpy PyFloat LoadBalance Invariant.
Local Open Scope R_scope.

Variable k : Z.

Lemma constant_sum (a : list Z) :
  Forall (fun c => c = k) a -> zsum a = (k * len a)%Z.
Proof.
  unfold len. induction 1 as [|x rest Hx Hrest IH]; [simpl; lia|].
  cbn [zsum fold_right List.length]. fold (zsum rest). rewrite IH, Hx. lia.
Qed.

Lemma constant_extrema (a : list Z) :
  a <> [] -> Forall (fun c => c = k) a -> zmin a = k /\ zmax a = k.
Proof.
  intros Hne Hall. rewrite Forall_forall in Hall. split; apply Hall.
  - apply (zmin_spec a Hne).
  - apply (zmax_spec a Hne).
Qed.

Lemma constant_deviation (a : list Z) :
  Forall (fun c => c = k) a -> sum_sq_dev (IZR k) a = 0.
Proof.
  induction 1 as [|x rest Hx Hrest IH]; simpl; [reflexivity|].
  rewrite IH, Hx. ring.
Qed.

Lemma constant_mean (a : list Z) :
  a <> [] -> Forall (fun c => c = k) a -> mean_count a = IZR k.
Proof.
  intros Hne Hall. unfold mean_count.
  rewrite (constant_sum a Hall), mult_IZR.
  apply len_positive, IZR_lt in Hne. field. lra.
Qed.

Lemma constant_std (a : list Z) :
  a <> [] -> Forall (fun c => c = k) a -> population_std_dev a = 0.
Proof.
  intros Hne Hall. unfold population_std_dev.
  rewrite (constant_mean a Hne Hall), (constant_deviation a Hall).
  unfold Rdiv. rewrite Rmult_0_l. apply sqrt_0.
Qed.

(** C5: when every target observed for a local id received the same
    number [k] of its requests (in particular when there is a single
    target), the record of that local id has [cv = 0], [rsd = 0],
    [max_min_ratio = 1], and its composite score is 100. *)
Theorem C5_even_group_is_perfectly_fair (df : DataFrame) (x : Z) :
  In x (map LocalXpuId df) ->
  (forall t, In t (map SueId (select_local df x)) -> target_count df x t = k) ->
  exists ms m scores,
    calculate_load_balance_metrics df = Ok ms /\
    getitem ms x = Ok m /\
    cv m = 0 /\
    rsd m = 0 /\
    max_min_ratio m = Fin 1 /\
    overall_score m = Fin 100 /\
    fairness_scores ms = Ok scores /\
    In (x, Fin 100) scores.
Proof.
  intros Hin Heven.
  destruct (metrics_present df x Hin) as [ms [m [Hms [Hget Hm]]]].
  destruct (regular_present df x m Hin Hm) as [Hreg [Hsc _]].
  pose proof (counts_nonempty m Hreg) as Hne.
  assert (Hall : Forall (fun c => c = k) (actual_counts m)).
  { apply Forall_forall. intros c Hc. unfold actual_counts in Hc.
    apply in_map_iff in Hc. destruct Hc as [[t c'] [Hcc Htc]].
    simpl in Hcc. subst c'. rewrite Hsc in Htc.
    apply sue_counts_entry in Htc. destruct Htc as [Ht ->].
    rewrite occurrences_target_count. now apply Heven. }
  assert (Hstd : std (as_float (actual_counts m)) = 0)
    by (rewrite std_as_float; now apply constant_std).
  destruct (constant_extrema _ Hne Hall) as [Hmin Hmax].
  assert (Hk : (0 < k)%Z) by (rewrite <- Hmin; apply (min_positive m Hreg)).
  assert (Hcv : cv m = 0).
  { rewrite (cv_value m Hreg), Hstd. unfold Rdiv. ring. }
  assert (Hrsd : rsd m = 0).
  { rewrite (rsd_value m Hreg), Hstd. unfold Rdiv. ring. }
  assert (Hratio : max_min_ratio m = Fin 1).
  { rewrite (ratio_value m Hreg), Hmin, Hmax. f_equal.
    apply Rdiv_diag. apply IZR_lt in Hk. lra. }
  assert (Hscore : overall_score m = Fin 100).
  { rewrite (overall_score_fin m 1 Hratio), Hcv, Hrsd. f_equal.
    rewrite !Rmax_right by lra. lra. }
  exists ms, m, (map (fun km => (fst km, overall_score (snd km))) ms).
  repeat split; auto.
  - now apply (fairness_scores_calculated df).
  - rewrite <- Hscore. apply getitem_Ok_In in Hget.
    apply in_map_iff. exists (x, m). split; [reflexivity | exact Hget].
Qed.

End EvenGroups.

Lemma C5_even_group_is_perfectly_fair_witness :
  (exists ms m scores,
     LoadBalance.calculate_load_balance_metrics Examples.table = Ok ms /\
     LoadBalance.getitem ms 1 = Ok m /\
     LoadBalance.cv m = 0%R /\
     LoadBalance.rsd m = 0%R /\
     LoadBalance.max_min_ratio m = PyFloat.Fin 1 /\
     LoadBalance.overall_score m = PyFloat.Fin 100 /\
     LoadBalance.fairness_scores ms = Ok scores /\
     In (1, PyFloat.Fin 100) scores) /\
  (exists ms m scores,
     LoadBalance.calculate_load_balance_metrics Examples.table = Ok ms /\
     LoadBalance.getitem ms 3 = Ok m /\
     LoadBalance.cv m = 0%R /\
     LoadBalance.rsd m = 0%R /\
     LoadBalance.max_min_ratio m = PyFloat.Fin 1 /\
     LoadBalance.overall_score m = PyFloat.Fin 100 /\
     LoadBalance.fairness_scores ms = Ok scores /\
     In (3, PyFloat.Fin 100) scores).
Proof.
  split.
  - apply (C5_even_group_is_perfectly_fair 2 Examples.table 1).
    + simpl. auto.
    + intros t Hin. simpl in Hin.
      repeat (destruct Hin as [<-|Hin]; [reflexivity|]). contradiction.
  - apply (C5_even_group_is_perfectly_fair 1 Examples.table 3).
    + simpl. auto.
    + intros t Hin. simpl in Hin.
      repeat (destruct Hin as [<-|Hin]; [reflexivity|]). contradiction.
Defined.

(** * Packet-loss accounting *)

Section PacketLoss.

Import Loss.

Lemma int_of_digits_nonneg (ds : list ascii) : 0 <= int_of_digits ds.
Proof.
  unfold int_of_digits.
  assert (Hgen : forall acc, 0 <= acc ->
            0 <= fold_left (fun a c => 10 * a + digit_value c) ds acc).
  { induction ds as [|d rest IH]; intros acc Hacc; cbn [fold_left];
      [exact Hacc|].
    apply IH. unfold digit_value. lia. }
  apply Hgen. lia.
Qed.

Lemma match_here_nonneg (verb s : string) (n : Z) :
  match_here verb s = Some n -> 0 <= n.
Proof.
  unfold match_here. destruct (prefix (verb ++ " ") s); [|discriminate].
  destruct (span_digits (drop (String.length verb + 1) s)) as [ds tail].
  destruct ds as [|d ds']; [discriminate|].
  destruct (prefix " packets" tail); [|discriminate].
  intros H. inversion H. apply int_of_digits_nonneg.
Qed.

Lemma re_search_nonneg (verb line : string) (n : Z) :
  re_search verb line = Some n -> 0 <= n.
Proof.
  induction line as [|c rest IH]; simpl.
  - destruct (match_here verb "") as [k|] eqn:E; [|discriminate].
    intros H. inversion H; subst. now apply (match_here_nonneg verb "").
  - destruct (match_here verb (String c rest)) as [k|] eqn:E.
    + intros H. inversion H; subst.
      now apply (match_here_nonneg verb (String c rest)).
    + exact IH.
Qed.

Lemma scan_line_nonneg (t : Totals) (line : string) :
  nonneg_totals t -> nonneg_totals (scan_line t line).
Proof.
  unfold nonneg_totals, scan_line. intros [Hs [Hr Hd]].
  destruct (contains "Summary: Sent" line).
  { destruct (re_search "Sent" line) as [n|] eqn:E; [|auto].
    apply re_search_nonneg in E. simpl. repeat split; lia. }
  destruct (contains "Received" line && contains "Port" line).
  { destruct (re_search "Received" line) as [n|] eqn:E; [|auto].
    apply re_search_nonneg in E. simpl. repeat split; lia. }
  destruct (contains "Dropped" line && contains "Port" line); [|auto].
  destruct (re_search "Dropped" line) as [n|] eqn:E; [|auto].
  apply re_search_nonneg in E. simpl. repeat split; lia.
Qed.

(** The counters read from a log are never negative. *)
Lemma scan_nonneg (log : list string) : nonneg_totals (scan log).
Proof.
  unfold scan.
  assert (Hgen : forall t, nonneg_totals t ->
            nonneg_totals (fold_left scan_line log t)).
  { induction log as [|line rest IH]; intros t Ht; simpl; [exact Ht|].
    apply IH. now apply scan_line_nonneg. }
  apply Hgen. unfold nonneg_totals. simpl. lia.
Qed.

(** C7: with the counters read from the log, when more packets were sent
    than received and the drop counter is 0, the returned drop count is
    sent - received and the receiver and total loss rates are computed from
    that value; in every other case with sent packets the returned drop
    count is the counter read from the log; with no sent packets the
    function returns its error and no counts. *)
Theorem C7_switch_loss_fallback (log : list string) :
  let t := scan log in
  (total_received t < total_sent t /\ total_dropped t = 0 ->
   calculate_packet_loss log =
   stats_from (total_sent t) (total_received t)
              (total_sent t - total_received t)) /\
  (~ (total_received t < total_sent t /\ total_dropped t = 0) ->
   total_sent t <> 0 ->
   calculate_packet_loss log =
   stats_from (total_sent t) (total_received t) (total_dropped t)) /\
  (total_sent t = 0 -> calculate_packet_loss log = no_sent_data).
Proof.
  intros t. unfold calculate_packet_loss. fold t.
  repeat split.
  - intros [Hlt Hzero].
    destruct (Z.ltb_spec (total_received t) (total_sent t)) as [_|]; [|lia].
    destruct (Z.eqb_spec (total_dropped t) 0) as [_|]; [|lia]. cbn [andb].
    pose proof (scan_nonneg log) as [_ [Hrecv _]]. fold t in Hrecv.
    destruct (Z.eqb_spec (total_sent t) 0); [lia | reflexivity].
  - intros Hother Hsent.
    destruct (Z.eqb_spec (total_sent t) 0) as [|_]; [lia|].
    destruct (Z.ltb_spec (total_received t) (total_sent t)) as [Hlt|_];
      [|reflexivity].
    destruct (Z.eqb_spec (total_dropped t) 0) as [Hz|_]; [|reflexivity].
    exfalso. apply Hother. now split.
  - intros Hsent.
    destruct (Z.eqb_spec (total_sent t) 0) as [_|]; [reflexivity | lia].
Qed.

Lemma C7_switch_loss_fallback_witness :
  calculate_packet_loss Examples.log_switch_loss = stats_from 120 30 90 /\
  calculate_packet_loss Examples.log_explicit_drops = stats_from 120 30 5 /\
  calculate_packet_loss Examples.log_nothing_sent = no_sent_data.
Proof.
  split; [|split].
  - apply (proj1 (C7_switch_loss_fallback Examples.log_switch_loss)).
    split; reflexivity.
  - apply (proj1 (proj2 (C7_switch_loss_fallback Examples.log_explicit_drops))).
    + intros [_ Hzero]. vm_compute in Hzero. discriminate.
    + vm_compute. discriminate.
  - apply (proj2 (proj2 (C7_switch_loss_fallback Examples.log_nothing_sent))).
    reflexivity.
Defined.

End PacketLoss.

(** * Chart generation in [main] *)

Section ChartFailures.

Import Main.

Lemma create_chart_ok (env : Env) (c : chart) (msg : string) (w : World) :
  render env c = None ->
  create_chart env c msg w = (Ok tt, w ++ [SavedChart c; Printed msg]).
Proof.
  intros Hr. unfold create_chart. rewrite Hr.
  unfold seq, print, emit. f_equal. now rewrite <- app_assoc.
Qed.

Lemma create_chart_raise (env : Env) (c : chart) (msg : string) (w : World)
      (e : exn) :
  render env c = Some e -> create_chart env c msg w = (Raise e, w).
Proof. intros Hr. unfold create_chart. now rewrite Hr. Qed.

(** The whole run when the box plot raises [e]. *)
Lemma run_box_plot_failure (env : Env) (e : exn) :
  render env BoxPlot = Some e ->
  write_report env = None ->
  run env =
  (Ok tt,
   [Printed "Generating visualization charts...";
    Printed ("Error generating charts: " ++ exn_message e);
    Traceback e;
    Printed "Generating analysis report...";
    SavedReport;
    Printed "Analysis report saved";
    Printed "LoadBalancer analysis completed!";
    Printed "Results saved at: output_dir";
    Printed "   - load_balance_boxplot.png: Box plot";
    Printed "   - load_balance_heatmap.png: Heatmap";
    Printed "   - load_balance_fairness.png: Fairness analysis";
    Printed "   - load_balance_analysis_report.txt: Detailed report"]).
Proof.
  intros Hbox Hrep.
  unfold run, main, create_box_plot, create_chart, generate_analysis_report.
  rewrite Hbox, Hrep. reflexivity.
Qed.

(** Whatever happens to the charts, no exception leaves the handler and
    the report is written. *)
Lemma run_report_always (env : Env) :
  write_report env = None ->
  fst (run env) = Ok tt /\ report_saved (snd (run env)) = true.
Proof.
  intros Hrep.
  unfold run, main, create_box_plot, create_distribution_heatmap,
    create_fairness_analysis, create_chart, generate_analysis_report.
  rewrite Hrep.
  destruct (render env BoxPlot), (render env Heatmap),
    (render env FairnessChart); split; reflexivity.
Qed.

(** With a renderer that never fails, the three charts and the report are
    all written. *)
Lemma run_all_charts (env : Env) :
  (forall c, render env c = None) ->
  write_report env = None ->
  saved BoxPlot (snd (run env)) = true /\
  saved Heatmap (snd (run env)) = true /\
  saved FairnessChart (snd (run env)) = true /\
  report_saved (snd (run env)) = true.
Proof.
  intros Hr Hrep.
  unfold run, main, create_box_plot, create_distribution_heatmap,
    create_fairness_analysis, create_chart, generate_analysis_report.
  rewrite !Hr, Hrep. repeat split; reflexivity.
Qed.

(** C8 (as the code behaves): when the box plot fails, the single handler
    around the three chart calls runs once: neither the heatmap nor the
    fairness chart is generated, whatever the renderer would have done for
    them; the error is logged, the report is still written, and the closing
    messages still list the heatmap among the results. *)
Theorem C8_box_plot_failure_skips_other_charts (env : Env) (e : exn) :
  render env BoxPlot = Some e ->
  write_report env = None ->
  fst (run env) = Ok tt /\
  saved BoxPlot (snd (run env)) = false /\
  saved Heatmap (snd (run env)) = false /\
  saved FairnessChart (snd (run env)) = false /\
  report_saved (snd (run env)) = true /\
  In (Traceback e) (snd (run env)) /\
  In (Printed "   - load_balance_heatmap.png: Heatmap") (snd (run env)).
Proof.
  intros Hbox Hrep. rewrite (run_box_plot_failure env e Hbox Hrep).
  cbn. repeat split; auto 12.
Qed.

Lemma C8_box_plot_failure_skips_other_charts_witness :
  fst (run Examples.box_plot_fails) = Ok tt /\
  saved BoxPlot (snd (run Examples.box_plot_fails)) = false /\
  saved Heatmap (snd (run Examples.box_plot_fails)) = false /\
  saved FairnessChart (snd (run Examples.box_plot_fails)) = false /\
  report_saved (snd (run Examples.box_plot_fails)) = true /\
  In (Traceback (RenderError "savefig failed"))
     (snd (run Examples.box_plot_fails)) /\
  In (Printed "   - load_balance_heatmap.png: Heatmap")
     (snd (run Examples.box_plot_fails)).
Proof.
  apply (C8_box_plot_failure_skips_other_charts
           Examples.box_plot_fails (RenderError "savefig failed"));
    reflexivity.
Defined.

End ChartFailures.

(** * More on the packet-loss figures *)

Section LossRates.

Import Loss LossExtra.
Local Open Scope R_scope.

(** The drop count in use when the rates are computed. *)
Lemma calculate_packet_loss_value (log : list string) :
  calculate_packet_loss log =
  if (total_sent (scan log) =? 0)%Z then no_sent_data
  else stats_from (total_sent (scan log)) (total_received (scan log))
         (if ((total_received (scan log) <? total_sent (scan log)) &&
              (total_dropped (scan log) =? 0))%Z%bool
          then (total_sent (scan log) - total_received (scan log))%Z
          else total_dropped (scan log)).
Proof. reflexivity. Qed.

(** With the switch-loss fallback the missing packets are counted twice:
    the total loss rate is twice the network loss rate, and it exceeds
    100 percent as soon as less than half of the packets arrived. *)
Theorem fallback_doubles_total_loss (log : list string) :
  (total_received (scan log) < total_sent (scan log))%Z ->
  total_dropped (scan log) = 0%Z ->
  exists network receiver,
    calculate_packet_loss log =
    LossStats (total_sent (scan log)) (total_received (scan log))
              (total_sent (scan log) - total_received (scan log))
              network receiver (2 * network) /\
    0 < network /\
    ((2 * total_received (scan log) < total_sent (scan log))%Z ->
     100 < 2 * network).
Proof.
  intros Hlt Hzero. rewrite calculate_packet_loss_value.
  pose proof (scan_nonneg log) as [_ [Hrecv _]].
  set (s := total_sent (scan log)) in *.
  set (r := total_received (scan log)) in *.
  rewrite Hzero.
  destruct (Z.eqb_spec s 0) as [|_]; [lia|].
  destruct (Z.ltb_spec r s) as [_|]; [|lia]. cbn [Z.eqb andb].
  assert (Hs : 0 < IZR s) by (apply IZR_lt; lia).
  unfold stats_from. eexists. eexists. split; [|split].
  - f_equal. rewrite !minus_IZR. field. lra.
  - rewrite minus_IZR. apply IZR_lt in Hlt.
    apply Rmult_lt_0_compat; [|lra].
    apply Rdiv_lt_0_compat; lra.
  - intros Hhalf. apply IZR_lt in Hhalf. rewrite mult_IZR in Hhalf.
    rewrite minus_IZR.
    assert (Hq : 1 / 2 < (IZR s - IZR r) / IZR s).
    { apply Rmult_lt_reg_r with (IZR s); [exact Hs|].
      unfold Rdiv. rewrite (Rmult_assoc (IZR s - IZR r)), Rinv_l; lra. }
    lra.
Qed.

Lemma fallback_doubles_total_loss_witness :
  exists network receiver,
    calculate_packet_loss Examples.log_switch_loss =
    LossStats 120 30 90 network receiver (2 * network) /\
    0 < network /\ 100 < 2 * network.
Proof.
  destruct (fallback_doubles_total_loss Examples.log_switch_loss)
    as [network [receiver [Hres [Hpos Hover]]]]; [reflexivity | reflexivity |].
  exists network, receiver. split; [exact Hres|]. split; [exact Hpos|].
  apply Hover. reflexivity.
Defined.

(** Whenever statistics are returned: the drop count is not negative, the
    network loss rate is at most 100, the receiver drop rate is not
    negative, and the total loss rate is the network loss rate plus the
    drop count in percent of the sent packets. *)
Theorem loss_rates_related (log : list string) :
  total_sent (scan log) <> 0%Z ->
  exists dropped network receiver total,
    calculate_packet_loss log =
    LossStats (total_sent (scan log)) (total_received (scan log))
              dropped network receiver total /\
    (0 <= dropped)%Z /\
    network <= 100 /\
    0 <= receiver /\
    total = network + IZR dropped / IZR (total_sent (scan log)) * 100 /\
    network <= total.
Proof.
  intros Hsent. rewrite calculate_packet_loss_value.
  pose proof (scan_nonneg log) as [Hs [Hr Hd]].
  set (s := total_sent (scan log)) in *.
  set (r := total_received (scan log)) in *.
  set (d0 := total_dropped (scan log)) in *.
  destruct (Z.eqb_spec s 0) as [|_]; [contradiction|].
  set (d := if ((r <? s) && (d0 =? 0))%Z%bool then (s - r)%Z else d0).
  assert (Hdn : (0 <= d)%Z).
  { unfold d. destruct (Z.ltb_spec r s); destruct (Z.eqb_spec d0 0);
      cbn [andb]; lia. }
  assert (HS : 0 < IZR s) by (apply IZR_lt; lia).
  assert (HD : 0 <= IZR d / IZR s * 100).
  { apply Rmult_le_pos; [|lra]. unfold Rdiv. apply Rmult_le_pos.
    - now apply IZR_le.
    - left. now apply Rinv_0_lt_compat. }
  unfold stats_from. do 4 eexists. split; [reflexivity|].
  split; [exact Hdn|]. split; [|split; [|split]].
  - rewrite minus_IZR. apply IZR_le in Hr.
    assert (Hq : (IZR s - IZR r) / IZR s <= 1).
    { apply Rmult_le_reg_r with (IZR s); [exact HS|].
      unfold Rdiv. rewrite (Rmult_assoc (IZR s - IZR r)), Rinv_l; lra. }
    lra.
  - destruct (Z.eqb_spec r 0) as [|Hr0]; [lra|].
    apply Rmult_le_pos; [|lra]. unfold Rdiv. apply Rmult_le_pos.
    + now apply IZR_le.
    + left. apply Rinv_0_lt_compat, IZR_lt. lia.
  - rewrite !minus_IZR. field. lra.
  - assert (Heq : IZR (s - (r - d)) / IZR s * 100 =
                  IZR (s - r) / IZR s * 100 + IZR d / IZR s * 100)
      by (rewrite !minus_IZR; field; lra).
    rewrite Heq. lra.
Qed.

Lemma loss_rates_related_witness :
  exists dropped network receiver total,
    calculate_packet_loss Examples.log_explicit_drops =
    LossStats 120 30 dropped network receiver total /\
    (0 <= dropped)%Z /\
    network <= 100 /\
    0 <= receiver /\
    total = network + IZR dropped / IZR 120 * 100 /\
    network <= total.
Proof.
  apply (loss_rates_related Examples.log_explicit_drops).
  vm_compute. discriminate.
Defined.

End LossRates.

(** * Reading the log *)

Section LogScanning.

Import Loss LossExtra.

Lemma scan_line_adds (t : Totals) (line : string) :
  scan_line t line = add_totals t (scan_line (mkTotals 0 0 0) line).
Proof.
  unfold scan_line, add_totals. destruct t as [s r d]. cbn [total_sent
    total_received total_dropped].
  destruct (contains "Summary: Sent" line).
  { destruct (re_search "Sent" line); cbn; f_equal; lia. }
  destruct (contains "Received" line && contains "Port" line).
  { destruct (re_search "Received" line); cbn; f_equal; lia. }
  destruct (contains "Dropped" line && contains "Port" line).
  { destruct (re_search "Dropped" line); cbn; f_equal; lia. }
  cbn; f_equal; lia.
Qed.

Lemma add_totals_assoc (a b c : Totals) :
  add_totals (add_totals a b) c = add_totals a (add_totals b c).
Proof. unfold add_totals. cbn. f_equal; lia. Qed.

Lemma add_totals_zero_r (a : Totals) : add_totals a (mkTotals 0 0 0) = a.
Proof. destruct a. unfold add_totals. cbn. f_equal; lia. Qed.

Lemma fold_scan_adds (log : list string) (t : Totals) :
  fold_left scan_line log t = add_totals t (scan log).
Proof.
  unfold scan. revert t.
  induction log as [|line rest IH]; intros t; cbn [fold_left].
  - now rewrite add_totals_zero_r.
  - rewrite IH, (IH (scan_line _ line)), <- add_totals_assoc.
    now rewrite <- scan_line_adds.
Qed.

(** The counters of two logs read one after the other are the sums of the
    counters of each. *)
Theorem scan_app (log1 log2 : list string) :
  scan (log1 ++ log2) = add_totals (scan log1) (scan log2).
Proof.
  unfold scan at 1. rewrite fold_left_app. fold (scan log1).
  apply fold_scan_adds.
Qed.

(** A line never lowers a counter and changes at most one of them; a line
    with a send summary leaves the received and dropped counters alone
    whatever else it contains. *)
Theorem scan_line_one_counter (t : Totals) (line : string) :
  total_sent t <= total_sent (scan_line t line) /\
  total_received t <= total_received (scan_line t line) /\
  total_dropped t <= total_dropped (scan_line t line) /\
  ((total_sent (scan_line t line) = total_sent t /\
    total_received (scan_line t line) = total_received t) \/
   (total_sent (scan_line t line) = total_sent t /\
    total_dropped (scan_line t line) = total_dropped t) \/
   (total_received (scan_line t line) = total_received t /\
    total_dropped (scan_line t line) = total_dropped t)) /\
  (contains "Summary: Sent" line = true ->
   total_received (scan_line t line) = total_received t /\
   total_dropped (scan_line t line) = total_dropped t).
Proof.
  unfold scan_line.
  destruct (contains "Summary: Sent" line).
  { destruct (re_search "Sent" line) as [n|] eqn:E; cbn;
      [apply re_search_nonneg in E|]; repeat split; auto; lia. }
  destruct (contains "Received" line && contains "Port" line).
  { destruct (re_search "Received" line) as [n|] eqn:E; cbn;
      [apply re_search_nonneg in E|]; repeat split; auto; try lia;
      discriminate. }
  destruct (contains "Dropped" line && contains "Port" line).
  { destruct (re_search "Dropped" line) as [n|] eqn:E; cbn;
      [apply re_search_nonneg in E|]; repeat split; auto; try lia;
      discriminate. }
  repeat split; auto; try lia; discriminate.
Qed.

Lemma scan_line_without_summary (t : Totals) (line : string) :
  contains "Summary: Sent" line = false ->
  total_sent (scan_line t line) = total_sent t.
Proof.
  intros Hno. unfold scan_line. rewrite Hno.
  destruct (contains "Received" line && contains "Port" line).
  { destruct (re_search "Received" line); reflexivity. }
  destruct (contains "Dropped" line && contains "Port" line);
    [destruct (re_search "Dropped" line)|]; reflexivity.
Qed.

Lemma fold_scan_without_summary (log : list string) (t : Totals) :
  Forall (fun line => contains "Summary: Sent" line = false) log ->
  total_sent (fold_left scan_line log t) = total_sent t.
Proof.
  intros Hall. revert t.
  induction Hall as [|line rest Hline Hrest IH]; intros t; cbn [fold_left].
  - reflexivity.
  - rewrite IH. now apply scan_line_without_summary.
Qed.

(** The error is returned exactly when the summed send counts are 0; in
    particular a log without any "Summary: Sent" line gives the error,
    whatever it says about received and dropped packets. *)
Theorem no_send_summary_is_an_error (log : list string) :
  (calculate_packet_loss log = no_sent_data <-> total_sent (scan log) = 0) /\
  (Forall (fun line => contains "Summary: Sent" line = false) log ->
   calculate_packet_loss log = no_sent_data).
Proof.
  assert (Hiff : calculate_packet_loss log = no_sent_data <->
                 total_sent (scan log) = 0).
  { rewrite calculate_packet_loss_value.
    destruct (Z.eqb_spec (total_sent (scan log)) 0) as [Hz|Hnz].
    - tauto.
    - split; [discriminate | contradiction]. }
  split; [exact Hiff|].
  intros Hall. apply Hiff. unfold scan.
  now rewrite fold_scan_without_summary.
Qed.

Lemma no_send_summary_is_an_error_witness :
  calculate_packet_loss Examples.log_nothing_sent = no_sent_data.
Proof.
  apply (proj2 (no_send_summary_is_an_error Examples.log_nothing_sent)).
  repeat constructor.
Defined.

End LogScanning.

(** * The pattern match on a log line *)

Section PatternMatch.

Import Loss LossExtra.
Local Open Scope string_scope.

Lemma string_app_assoc (a b c : string) : (a ++ b) ++ c = a ++ (b ++ c).
Proof. induction a as [|x a IH]; [reflexivity | cbn; now rewrite IH]. Qed.

Lemma prefix_split (p s : string) :
  prefix p s = true -> s = p ++ drop (String.length p) s.
Proof.
  revert s. induction p as [|a p IH]; intros s H.
  - reflexivity.
  - destruct s as [|b s]; [discriminate|]. cbn in H.
    destruct (ascii_dec a b) as [->|]; [|discriminate].
    cbn. f_equal. now apply IH.
Qed.

Lemma prefix_append (p r : string) : prefix p (p ++ r) = true.
Proof.
  induction p as [|a p IH]; [destruct r; reflexivity|].
  cbn. destruct (ascii_dec a a); [exact IH | congruence].
Qed.

Lemma prefix_weaken (p s r : string) :
  prefix p s = true -> prefix p (s ++ r) = true.
Proof.
  intros H. rewrite (prefix_split p s H), string_app_assoc.
  apply prefix_append.
Qed.

Lemma drop_append (p r : string) : drop (String.length p) (p ++ r) = r.
Proof. induction p as [|a p IH]; [destruct r; reflexivity | exact IH]. Qed.

Lemma span_digits_split (s : string) (ds : list ascii) (tail : string) :
  span_digits s = (ds, tail) ->
  s = string_of_list_ascii ds ++ tail /\
  Forall (fun c => is_digit c = true) ds.
Proof.
  revert ds tail. induction s as [|c s IH]; intros ds tail H; cbn in H.
  - inversion H. split; [reflexivity | constructor].
  - destruct (is_digit c) eqn:Ec.
    + destruct (span_digits s) as [ds' tail'] eqn:Es.
      inversion H; subst. destruct (IH ds' tail eq_refl) as [Hs Hall].
      split; [cbn; now f_equal | now constructor].
    + inversion H. split; [reflexivity | constructor].
Qed.

Lemma span_digits_run (ds : list ascii) (rest : string) :
  Forall (fun c => is_digit c = true) ds ->
  span_digits (string_of_list_ascii ds ++ " packets" ++ rest) =
  (ds, " packets" ++ rest).
Proof.
  induction 1 as [|c ds Hc Hds IH]; [reflexivity|].
  cbn [string_of_list_ascii append span_digits]. rewrite Hc.
  cbn [string_of_list_ascii append] in IH. now rewrite IH.
Qed.

Lemma match_here_sound (verb s : string) (n : Z) :
  match_here verb s = Some n ->
  exists ds rest,
    s = packet_line verb ds rest /\
    ds <> [] /\
    Forall (fun c => is_digit c = true) ds /\
    n = int_of_digits ds.
Proof.
  unfold match_here, packet_line.
  destruct (prefix (verb ++ " ") s) eqn:Ep; [|discriminate].
  destruct (span_digits (drop (String.length verb + 1) s)) as [ds tail] eqn:Es.
  destruct ds as [|d ds']; [discriminate|].
  destruct (prefix " packets" tail) eqn:Et; [|discriminate].
  intros H. inversion H; subst n. clear H.
  apply prefix_split in Ep.
  assert (Hlen : String.length (verb ++ " ") = (String.length verb + 1)%nat).
  { clear. induction verb as [|a v IH]; [reflexivity | cbn; now rewrite IH]. }
  rewrite Hlen in Ep.
  destruct (span_digits_split _ _ _ Es) as [Hs Hall].
  apply prefix_split in Et.
  exists (d :: ds'), (drop (String.length " packets") tail).
  split; [|split; [discriminate | split; [exact Hall | reflexivity]]].
  rewrite Ep at 1. rewrite Hs. rewrite Et at 1.
  now rewrite string_app_assoc.
Qed.

(** Whatever [re.search] returns was read off the line: the line holds the
    verb, a blank, a non-empty run of digits and " packets", and the value
    is the decimal value of that run. *)
Theorem re_search_sound (verb line : string) (n : Z) :
  re_search verb line = Some n ->
  exists before ds rest,
    line = before ++ packet_line verb ds rest /\
    ds <> [] /\
    Forall (fun c => is_digit c = true) ds /\
    n = int_of_digits ds.
Proof.
  induction line as [|c line IH]; cbn [re_search].
  - destruct (match_here verb "") as [k|] eqn:E; [|discriminate].
    intros H. inversion H; subst k.
    destruct (match_here_sound _ _ _ E) as [ds [rest Hm]].
    exists "", ds, rest. exact Hm.
  - destruct (match_here verb (String c line)) as [k|] eqn:E.
    + intros H. inversion H; subst k.
      destruct (match_here_sound _ _ _ E) as [ds [rest Hm]].
      exists "", ds, rest. exact Hm.
    + intros H. destruct (IH H) as [before [ds [rest [Hl Hm]]]].
      exists (String c before), ds, rest. split; [|exact Hm].
      cbn. now f_equal.
Qed.

Lemma re_search_sound_witness :
  exists before ds rest,
    "Summary: Sent 120 packets" = before ++ packet_line "Sent" ds rest /\
    ds <> [] /\
    Forall (fun c => is_digit c = true) ds /\
    120%Z = int_of_digits ds.
Proof.
  apply (re_search_sound "Sent" "Summary: Sent 120 packets" 120).
  reflexivity.
Defined.

(** A line that starts with the verb, a blank, a non-empty run of digits
    and " packets" yields the decimal value of the run, whatever follows. *)
Theorem re_search_reads_count (verb : string) (ds : list ascii) (rest : string) :
  ds <> [] ->
  Forall (fun c => is_digit c = true) ds ->
  re_search verb (packet_line verb ds rest) = Some (int_of_digits ds).
Proof.
  intros Hne Hall.
  assert (Hm : match_here verb (packet_line verb ds rest) =
               Some (int_of_digits ds)).
  { unfold match_here, packet_line.
    assert (Hp : prefix (verb ++ " ")
                        (verb ++ " " ++ string_of_list_ascii ds ++
                         " packets" ++ rest) = true).
    { rewrite <- string_app_assoc. apply prefix_append. }
    rewrite Hp.
    assert (Hd : drop (String.length verb + 1)
                      (verb ++ " " ++ string_of_list_ascii ds ++
                       " packets" ++ rest) =
                 string_of_list_ascii ds ++ " packets" ++ rest).
    { clear. induction verb as [|a v IH]; [reflexivity | exact IH]. }
    rewrite Hd, (span_digits_run ds rest Hall).
    destruct ds as [|d ds']; [congruence|].
    now rewrite (prefix_append " packets" rest). }
  destruct (packet_line verb ds rest); cbn [re_search]; now rewrite Hm.
Qed.

Lemma re_search_reads_count_witness :
  re_search "Received" (packet_line "Received" ["3"%char; "0"%char] " on Port 2") =
  Some 30%Z.
Proof.
  apply (re_search_reads_count "Received" ["3"%char; "0"%char] " on Port 2").
  - discriminate.
  - repeat constructor.
Defined.

End PatternMatch.

(** * Choosing the input file *)

Section FileChoice.

Import Loss Files.
Local Open Scope string_scope.
Local Open Scope Z_scope.

Lemma max_by_spec {A} (key : A -> Z) (l : list A) (x : A) :
  max_by key l = Some x -> In x l /\ Forall (fun y => key y <= key x) l.
Proof.
  revert x. induction l as [|a rest IH]; intros x H; cbn in H; [discriminate|].
  destruct (max_by key rest) as [y|] eqn:E.
  - destruct (IH y eq_refl) as [Hin Hall].
    destruct (Z.ltb_spec (key a) (key y)) as [Hlt|Hge]; inversion H; subst x.
    + split; [now right|]. constructor; [lia | exact Hall].
    + split; [now left|]. constructor; [lia|].
      eapply Forall_impl; [|exact Hall]. cbn. intros; lia.
  - inversion H; subst x. destruct rest as [|b rest'].
    + split; [now left|]. constructor; [lia | constructor].
    + cbn in E. destruct (max_by key rest'); [destruct (_ <? _)|]; discriminate.
Qed.

Lemma max_by_none {A} (key : A -> Z) (l : list A) :
  max_by key l = None <-> l = [].
Proof.
  split; [|intros ->; reflexivity].
  destruct l as [|a rest]; [reflexivity|]. cbn.
  destruct (max_by key rest); [destruct (_ <? _)|]; discriminate.
Qed.

Lemma contains_prefix (needle hay : string) :
  prefix needle hay = true -> contains needle hay = true.
Proof. destruct hay; cbn; intros ->; reflexivity. Qed.

Lemma contains_append_l (needle a b : string) :
  contains needle a = true -> contains needle (a ++ b) = true.
Proof.
  induction a as [|c a IH]; cbn [contains]; intros H.
  - apply contains_prefix. now apply (prefix_weaken needle "" b).
  - apply orb_true_iff in H. destruct H as [H|H].
    + apply contains_prefix. now apply (prefix_weaken needle (String c a) b).
    + cbn [append contains]. apply orb_true_iff. right. now apply IH.
Qed.

Lemma contains_append_r (needle a b : string) :
  contains needle b = true -> contains needle (a ++ b) = true.
Proof.
  intros H. induction a as [|c a IH]; [exact H|].
  cbn [append contains]. apply orb_true_iff. now right.
Qed.

Lemma contains_file_content (needle line : string) (lines : list string) :
  In line lines -> contains needle line = true ->
  contains needle (file_content lines) = true.
Proof.
  unfold file_content. intros Hin Hc.
  induction lines as [|x rest IH]; [contradiction|].
  assert (Hcat : String.concat "" (x :: rest) = x ++ String.concat "" rest).
  { destruct rest as [|y rest']; [|reflexivity].
    cbn. clear. induction x as [|c x IH]; [reflexivity | cbn; now f_equal]. }
  rewrite Hcat. destruct Hin as [->|Hin].
  - now apply contains_append_l.
  - apply contains_append_r. now apply IH.
Qed.

Lemma summary_line_exists (log : list string) :
  total_sent (scan log) <> 0 ->
  exists line, In line log /\ contains "Summary: Sent" line = true.
Proof.
  intros Hsent.
  destruct (existsb (contains "Summary: Sent") log) eqn:E.
  - apply existsb_exists in E. exact E.
  - exfalso. apply Hsent. unfold scan.
    rewrite fold_scan_without_summary; [reflexivity|].
    apply Forall_forall. intros line Hin.
    destruct (contains "Summary: Sent" line) eqn:Ec; [|reflexivity].
    assert (existsb (contains "Summary: Sent") log = true)
      by (apply existsb_exists; eauto).
    congruence.
Qed.

(** Every readable log file from which [calculate_packet_loss] returns
    statistics passes [contains_valid_data]. *)
Theorem statistics_imply_valid_data (file : LogFile) (lines : list string) :
  log_read file = Ok lines ->
  total_sent (scan lines) <> 0 ->
  contains_valid_data file = true /\
  calculate_packet_loss lines <> no_sent_data.
Proof.
  intros Hread Hsent. split.
  - unfold contains_valid_data. rewrite Hread.
    destruct (summary_line_exists lines Hsent) as [line [Hin Hc]].
    unfold valid_keywords. cbn [existsb].
    now rewrite (contains_file_content _ line lines Hin Hc).
  - rewrite calculate_packet_loss_value.
    destruct (Z.eqb_spec (total_sent (scan lines)) 0);
      [contradiction | discriminate].
Qed.

Lemma statistics_imply_valid_data_witness :
  contains_valid_data
    (mkLogFile "sue-sim.log" 3 (Ok Examples.log_switch_loss)) = true /\
  calculate_packet_loss Examples.log_switch_loss <> no_sent_data.
Proof.
  apply (statistics_imply_valid_data
           (mkLogFile "sue-sim.log" 3 (Ok Examples.log_switch_loss))
           Examples.log_switch_loss).
  - reflexivity.
  - vm_compute. discriminate.
Defined.

Lemma lookup_file_In (name : string) (log_files : list LogFile) (f : LogFile) :
  lookup_file name log_files = Some f -> In f log_files /\ log_name f = name.
Proof.
  unfold lookup_file. intros H. apply find_some in H.
  destruct H as [Hin Hn]. split; [exact Hin|]. now apply String.eqb_eq.
Qed.

Lemma first_preferred_spec (names : list string) (log_files : list LogFile)
      (name : string) :
  first_preferred names log_files = Some name ->
  exists f, In f log_files /\ log_name f = name /\
            contains_valid_data f = true /\ In name names.
Proof.
  induction names as [|n rest IH]; cbn; [discriminate|].
  destruct (lookup_file n log_files) as [f|] eqn:El.
  - destruct (contains_valid_data f) eqn:Ev.
    + intros H. inversion H; subst n.
      destruct (lookup_file_In _ _ _ El) as [Hin Hn].
      exists f. auto.
    + intros H. destruct (IH H) as [g Hg]. exists g. tauto.
  - intros H. destruct (IH H) as [g Hg]. exists g. tauto.
Qed.

(** No file name is returned exactly when the log directory is missing or
    holds no log file. *)
Theorem find_default_log_file_none (log_dir : option (list LogFile)) :
  find_default_log_file log_dir = None <->
  log_dir = None \/ log_dir = Some [].
Proof.
  split.
  - destruct log_dir as [files|]; [|now left]. cbn [find_default_log_file].
    destruct (first_preferred possible_files files); [discriminate|].
    destruct (find contains_valid_data files); [discriminate|].
    destruct (max_by log_mtime files) eqn:E; [discriminate|].
    apply max_by_none in E. subst. now right.
  - intros [->| ->]; reflexivity.
Qed.

(** When some listed file holds valid data, the file returned is listed
    and holds valid data; it is sue-sim.log whenever that file is listed
    with valid data. *)
Theorem find_default_log_file_valid (log_files : list LogFile) (f : LogFile) :
  In f log_files ->
  contains_valid_data f = true ->
  (exists g, In g log_files /\
             find_default_log_file (Some log_files) = Some (log_name g) /\
             contains_valid_data g = true) /\
  (forall g, lookup_file "sue-sim.log" log_files = Some g ->
             contains_valid_data g = true ->
             find_default_log_file (Some log_files) = Some "sue-sim.log").
Proof.
  intros Hin Hv. split.
  - cbn [find_default_log_file].
    destruct (first_preferred possible_files log_files) as [name|] eqn:Ep.
    + destruct (first_preferred_spec _ _ _ Ep) as [g [Hg [Hn [Hgv _]]]].
      exists g. rewrite Hn. auto.
    + destruct (find contains_valid_data log_files) as [g|] eqn:Ef.
      * apply find_some in Ef. exists g. tauto.
      * exfalso. pose proof (find_none _ _ Ef f Hin). congruence.
  - intros g Hl Hg. cbn. now rewrite Hl, Hg.
Qed.

Lemma find_default_log_file_valid_witness :
  (exists g, In g MoreExamples.log_dir_mixed /\
             find_default_log_file (Some MoreExamples.log_dir_mixed) =
             Some (log_name g) /\
             contains_valid_data g = true) /\
  find_default_log_file (Some MoreExamples.log_dir_mixed) = Some "old.log".
Proof.
  split; [|reflexivity].
  refine (proj1 (find_default_log_file_valid MoreExamples.log_dir_mixed
            (mkLogFile "old.log" 1 (Ok ["XPU1 Port 2 Received 30 packets"]))
            _ _)).
  - cbn. auto.
  - reflexivity.
Defined.

(** When no listed file holds valid data, the most recently modified
    file is returned. *)
Theorem find_default_log_file_latest (log_files : list LogFile) :
  log_files <> [] ->
  Forall (fun f => contains_valid_data f = false) log_files ->
  exists latest,
    In latest log_files /\
    find_default_log_file (Some log_files) = Some (log_name latest) /\
    Forall (fun f => log_mtime f <= log_mtime latest) log_files.
Proof.
  intros Hne Hall. rewrite Forall_forall in Hall. cbn [find_default_log_file].
  destruct (first_preferred possible_files log_files) as [name|] eqn:Ep.
  { destruct (first_preferred_spec _ _ _ Ep) as [g [Hg [_ [Hgv _]]]].
    rewrite (Hall g Hg) in Hgv. discriminate. }
  destruct (find contains_valid_data log_files) as [g|] eqn:Ef.
  { apply find_some in Ef. destruct Ef as [Hg Hgv].
    rewrite (Hall g Hg) in Hgv. discriminate. }
  destruct (max_by log_mtime log_files) as [latest|] eqn:Em.
  - destruct (max_by_spec _ _ _ Em) as [Hin Hmax]. exists latest. auto.
  - apply max_by_none in Em. contradiction.
Qed.

Lemma find_default_log_file_latest_witness :
  exists latest,
    In latest [mkLogFile "a.log" 2 (Ok ["boot"]); mkLogFile "b.log" 7 (Raise (ValueError "unreadable"))] /\
    find_default_log_file
      (Some [mkLogFile "a.log" 2 (Ok ["boot"]);
             mkLogFile "b.log" 7 (Raise (ValueError "unreadable"))]) =
    Some (log_name latest) /\
    Forall (fun f => log_mtime f <= log_mtime latest)
           [mkLogFile "a.log" 2 (Ok ["boot"]);
            mkLogFile "b.log" 7 (Raise (ValueError "unreadable"))].
Proof.
  apply find_default_log_file_latest.
  - discriminate.
  - repeat constructor.
Defined.

Lemma first_existing_spec (fs : FileSystem) (paths : list string) (dir : string) :
  first_existing fs paths = Some dir ->
  exists before after,
    paths = (before ++ dir :: after)%list /\
    Forall (fun p => fs p = None) before /\
    fs dir <> None.
Proof.
  revert dir. induction paths as [|p rest IH]; intros dir H; cbn in H;
    [discriminate|].
  destruct (fs p) as [files|] eqn:E.
  - inversion H; subst p. exists [], rest. repeat split; [constructor|].
    congruence.
  - destruct (IH dir H) as [before [after [Hp [Hb Hd]]]].
    exists (p :: before), after. subst rest. repeat split; auto.
Qed.

Lemma first_existing_none (fs : FileSystem) (paths : list string) :
  first_existing fs paths = None <-> Forall (fun p => fs p = None) paths.
Proof.
  induction paths as [|p rest IH]; cbn.
  - split; [constructor | reflexivity].
  - destruct (fs p) eqn:E.
    + split; [discriminate|]. intros H. inversion H. congruence.
    + rewrite IH. split; [now constructor | now inversion 1].
Qed.

(** The file found is the newest one of the first candidate directory that
    exists; no later candidate is looked at.  Nothing is found exactly when
    no candidate exists or the first existing one holds no matching file,
    even if a later candidate does. *)
Theorem find_load_balance_data_first_directory (fs : FileSystem) :
  (forall dir file,
     find_load_balance_data fs = Some (dir, file) ->
     exists before after files,
       possible_paths = (before ++ dir :: after)%list /\
       Forall (fun p => fs p = None) before /\
       fs dir = Some files /\ In file files /\
       Forall (fun f => csv_mtime f <= csv_mtime file) files) /\
  (find_load_balance_data fs = None <->
   Forall (fun p => fs p = None) possible_paths \/
   exists dir, first_existing fs possible_paths = Some dir /\ fs dir = Some []).
Proof.
  unfold find_load_balance_data. split.
  - intros dir file H.
    destruct (first_existing fs possible_paths) as [d|] eqn:Ed; [|discriminate].
    destruct (first_existing_spec _ _ _ Ed) as [before [after [Hp [Hb _]]]].
    destruct (fs d) as [files|] eqn:Ef; [|discriminate].
    destruct (max_by csv_mtime files) as [f|] eqn:Em; [|discriminate].
    inversion H; subst d f.
    destruct (max_by_spec _ _ _ Em) as [Hin Hmax].
    exists before, after, files. auto.
  - destruct (first_existing fs possible_paths) as [d|] eqn:Ed.
    + destruct (first_existing_spec _ _ _ Ed) as [_ [_ [_ [_ Hd]]]].
      destruct (fs d) as [files|] eqn:Ef; [|contradiction].
      destruct (max_by csv_mtime files) as [f|] eqn:Em.
      * split; [discriminate|]. intros [Hall|[dir [Hdir Hnil]]].
        -- apply first_existing_none in Hall. congruence.
        -- inversion Hdir; subst dir. rewrite Ef in Hnil.
           inversion Hnil; subst files. discriminate.
      * apply max_by_none in Em. subst files. split; [|reflexivity].
        intros _. right. exists d. auto.
    + split; [|reflexivity]. intros _. left.
      now apply first_existing_none.
Qed.

Lemma find_load_balance_data_first_directory_witness :
  find_load_balance_data MoreExamples.fs_empty_first = None.
Proof.
  apply (proj2 (find_load_balance_data_first_directory
                  MoreExamples.fs_empty_first)).
  right. exists "data/load_balance_logs". split; reflexivity.
Defined.

End FileChoice.

(** * The overview and the heatmap table *)

Section Tables.

Import Frame Spec Numpy PyFloat LoadBalance Invariant Charts.





Lemma getitem_missing (d : MetricsDict) (k : Z) :
  ~ In k (keys d) -> getitem d k = Raise (KeyError k).
Proof.
  induction d as [|[k' m] rest IH]; cbn; [reflexivity|]. intros Hnot.
  destruct (Z.eqb_spec k' k) as [->|_]; [exfalso; apply Hnot; now left|].
  apply IH. intros H. apply Hnot. now right.
Qed.

(** Looking up an XPU that does not occur in the table raises KeyError;
    one that occurs is always found. *)
Theorem getitem_absent_xpu (df : DataFrame) (x : Z) :
  exists ms,
    calculate_load_balance_metrics df = Ok ms /\
    (~ In x (map LocalXpuId df) -> getitem ms x = Raise (KeyError x)) /\
    (In x (map LocalXpuId df) -> exists m, getitem ms x = Ok m).
Proof.
  destruct (calculate_ok df) as [ms [Hms [Hk _]]]. exists ms.
  split; [exact Hms|]. split.
  - intros Hnot. apply getitem_missing. rewrite Hk. now rewrite keys_In.
  - intros Hin. destruct (metrics_present df x Hin) as [ms' [m [Hms' [Hg _]]]].
    rewrite Hms in Hms'. inversion Hms'; subst ms'. eauto.
Qed.

Lemma getitem_absent_xpu_witness :
  exists ms,
    calculate_load_balance_metrics Examples.table = Ok ms /\
    getitem ms 7 = Raise (KeyError 7) /\
    exists m, getitem ms 2 = Ok m.
Proof.
  destruct (getitem_absent_xpu Examples.table 7) as [ms [Hms [Habsent _]]].
  destruct (getitem_absent_xpu Examples.table 2) as [ms' [Hms' [_ Hpresent]]].
  rewrite Hms in Hms'. inversion Hms'; subst ms'.
  exists ms. split; [exact Hms|]. split.
  - apply Habsent. cbn. intuition discriminate.
  - apply Hpresent. cbn. auto.
Defined.









End Tables.

(** * The box plot *)

Section BoxPlot.

Import Frame Spec Numpy PyFloat LoadBalance Invariant Charts.













End BoxPlot.

(** * Bar colours and the report *)

Section FairnessCharts.

Import Frame Spec Numpy PyFloat LoadBalance Invariant Charts Report.
Local Open Scope R_scope.








End FairnessCharts.

Section ReportFacts.

Import Frame Spec Numpy PyFloat LoadBalance Invariant Charts Report.
Local Open Scope R_scope.




Lemma fgt_excludes_flt (x : pyfloat) (hi lo : R) :
  lo <= hi -> fgt x (Fin hi) = true -> flt x (Fin lo) = false.
Proof.
  intros Hle. unfold flt. destruct x as [r| | |]; cbn; try discriminate.
  - destruct (Rlt_dec hi r); [|discriminate]. intros _.
    destruct (Rlt_dec r lo); [lra | reflexivity].
  - reflexivity.
Qed.

(** Whatever the averages are (also infinite or NaN), a report that gives
    any recommendation has the assessment POOR; an EXCELLENT or GOOD
    report gives none. *)
Theorem recommendations_only_when_poor (avg_cv avg_rsd avg_ratio : pyfloat) :
  assess avg_cv avg_rsd avg_ratio = POOR \/
  recommend avg_cv avg_rsd avg_ratio = [].
Proof.
  unfold assess, recommend.
  destruct (fgt avg_cv (Fin 0.2)) eqn:E1.
  { left. rewrite (fgt_excludes_flt avg_cv 0.2 0.1), (fgt_excludes_flt avg_cv 0.2 0.2);
      auto; lra. }
  destruct (fgt avg_rsd (Fin 20)) eqn:E2.
  { left. rewrite (fgt_excludes_flt avg_rsd 20 10), (fgt_excludes_flt avg_rsd 20 20);
      auto; try lra. now rewrite !andb_false_r. }
  destruct (fgt avg_ratio (Fin 2.0)) eqn:E3.
  { left. rewrite (fgt_excludes_flt avg_ratio 2.0 1.5), (fgt_excludes_flt avg_ratio 2.0 2.0);
      auto; try lra. now rewrite !andb_false_r. }
  right. reflexivity.
Qed.



Lemma rsum_scale (k : R) (xs : list R) :
  rsum (map (fun x => k * x) xs) = k * rsum xs.
Proof.
  unfold rsum. induction xs as [|x rest IH]; cbn; [ring|].
  rewrite IH. ring.
Qed.




End ReportFacts.

(** * Bounds and independence of the other columns *)

Section RecordBounds.

Import Frame Spec Numpy PyFloat LoadBalance Invariant.




Local Open Scope R_scope.



Local Close Scope R_scope.

Lemma select_local_pairs (df df' : DataFrame) (x : Z) :
  map (fun r => (LocalXpuId r, SueId r)) df =
  map (fun r => (LocalXpuId r, SueId r)) df' ->
  map SueId (select_local df x) = map SueId (select_local df' x).
Proof.
  revert df'. induction df as [|r rest IH]; intros df' H.
  - destruct df'; [reflexivity | discriminate].
  - destruct df' as [|r' rest']; [discriminate|].
    cbn [map] in H. inversion H as [[Hl Hs Hrest]].
    unfold select_local in *. cbn [filter]. rewrite Hl.
    destruct (LocalXpuId r' =? x); cbn [map]; rewrite (IH rest' Hrest);
      [now rewrite Hs | reflexivity].
Qed.

(** The metrics depend on the local XPU and SUE columns only: two tables
    that differ at most in the destination and virtual-channel columns
    give the same dictionary. *)
Theorem metrics_ignore_destination_and_vc (df df' : DataFrame) :
  map (fun r => (LocalXpuId r, SueId r)) df =
  map (fun r => (LocalXpuId r, SueId r)) df' ->
  calculate_load_balance_metrics df = calculate_load_balance_metrics df'.
Proof.
  intros H.
  assert (Hloc : map LocalXpuId df = map LocalXpuId df').
  { apply (f_equal (map fst)) in H. now rewrite !map_map in H. }
  unfold calculate_load_balance_metrics. rewrite Hloc.
  apply for_each_ext. intros x _. unfold xpu_metrics.
  rewrite (select_local_pairs df df' x H).
  assert (Hlen : len (select_local df x) = len (select_local df' x)).
  { rewrite <- (len_map SueId (select_local df x)),
            <- (len_map SueId (select_local df' x)).
    now rewrite (select_local_pairs df df' x H). }
  now rewrite Hlen.
Qed.

Lemma metrics_ignore_destination_and_vc_witness :
  calculate_load_balance_metrics
    [mkRow 1 4 0 7; mkRow 1 5 1 8; mkRow 2 6 2 7] =
  calculate_load_balance_metrics
    [mkRow 1 0 3 7; mkRow 1 0 0 8; mkRow 2 9 9 7].
Proof.
  apply metrics_ignore_destination_and_vc. reflexivity.
Defined.

End RecordBounds.

(** * Replaying a log *)

Section ReplayFacts.

Import Frame Spec Numpy PyFloat LoadBalance Invariant Replay.

Lemma replay_S {A} (k : nat) (l : list A) : replay (S k) l = l ++ replay k l.
Proof. reflexivity. Qed.

Lemma filter_replay {A} (p : A -> bool) (k : nat) (l : list A) :
  filter p (replay k l) = replay k (filter p l).
Proof.
  induction k as [|k IH]; [reflexivity|].
  now rewrite !replay_S, filter_app, IH.
Qed.

Lemma map_replay {A B} (f : A -> B) (k : nat) (l : list A) :
  map f (replay k l) = replay k (map f l).
Proof.
  induction k as [|k IH]; [reflexivity|].
  now rewrite !replay_S, map_app, IH.
Qed.

Lemma len_replay {A} (k : nat) (l : list A) :
  len (replay k l) = Z.of_nat k * len l.
Proof.
  unfold len. induction k as [|k IH]; [reflexivity|].
  rewrite replay_S, length_app. lia.
Qed.

Lemma occurrences_replay (v : Z) (k : nat) (col : list Z) :
  occurrences v (replay k col) = Z.of_nat k * occurrences v col.
Proof.
  unfold occurrences. rewrite filter_replay. apply len_replay.
Qed.

Lemma In_replay {A} (k : nat) (l : list A) (x : A) :
  (1 <= k)%nat -> (In x (replay k l) <-> In x l).
Proof.
  intros Hk. induction k as [|k IH]; [lia|].
  rewrite replay_S, in_app_iff. destruct k as [|k'].
  - cbn. tauto.
  - rewrite IH by lia. tauto.
Qed.

Lemma unique_replay (k : nat) (col : list Z) :
  (1 <= k)%nat -> Permutation (unique (replay k col)) (unique col).
Proof.
  intros Hk. apply NoDup_Permutation; auto using unique_NoDup.
  intros x. rewrite !unique_In. now apply In_replay.
Qed.

Lemma sorted_map_same_key {A} (key : A -> Z) (g : A -> A) (l : list A) :
  (forall a, key (g a) = key a) ->
  StronglySorted (key_le key) l -> StronglySorted (key_le key) (map g l).
Proof.
  intros Hg. induction 1 as [|a rest Hs IH Ha]; cbn [map]; constructor;
    [exact IH|].
  apply Forall_forall. intros b Hb. apply in_map_iff in Hb.
  destruct Hb as [c [<- Hc]]. rewrite Forall_forall in Ha.
  unfold key_le in *. rewrite !Hg. now apply Ha.
Qed.

(** Replaying multiplies every count and keeps the targets. *)
Lemma sue_counts_replay (k : nat) (col : list Z) :
  (1 <= k)%nat ->
  sort_index (value_counts (replay k col)) =
  map (fun e => (fst e, Z.of_nat k * snd e)) (sort_index (value_counts col)).
Proof.
  intros Hk. apply (sorted_Permutation_eq fst).
  - unfold sort_index. apply sort_by_sorted.
  - apply sorted_map_same_key; [reflexivity|].
    unfold sort_index. apply sort_by_sorted.
  - apply sue_counts_keys_NoDup.
  - rewrite sue_counts_Permutation.
    rewrite (map_ext _ (fun v => (v, Z.of_nat k * occurrences v col)))
      by (intros; now rewrite occurrences_replay).
    rewrite (Permutation_map _ (unique_replay k col Hk)).
    rewrite (Permutation_map _ (sue_counts_Permutation col)).
    rewrite map_map. reflexivity.
Qed.

Lemma zmin_scale (K : Z) (a : list Z) :
  0 < K -> a <> [] -> zmin (map (Z.mul K) a) = K * zmin a.
Proof.
  intros HK Hne.
  assert (Hne' : map (Z.mul K) a <> []) by (destruct a; [congruence | discriminate]).
  destruct (zmin_spec _ Hne') as [Hin Hall].
  destruct (zmin_spec _ Hne) as [Hin0 Hall0].
  apply in_map_iff in Hin. destruct Hin as [y [Hy Hyin]].
  rewrite Forall_forall in Hall, Hall0.
  specialize (Hall (K * zmin a) (in_map _ _ _ Hin0)).
  specialize (Hall0 y Hyin). nia.
Qed.

Lemma zmax_scale (K : Z) (a : list Z) :
  0 < K -> a <> [] -> zmax (map (Z.mul K) a) = K * zmax a.
Proof.
  intros HK Hne.
  assert (Hne' : map (Z.mul K) a <> []) by (destruct a; [congruence | discriminate]).
  destruct (zmax_spec _ Hne') as [Hin Hall].
  destruct (zmax_spec _ Hne) as [Hin0 Hall0].
  apply in_map_iff in Hin. destruct Hin as [y [Hy Hyin]].
  rewrite Forall_forall in Hall, Hall0.
  specialize (Hall (K * zmax a) (in_map _ _ _ Hin0)).
  specialize (Hall0 y Hyin). nia.
Qed.

Local Open Scope R_scope.

Lemma as_float_scale (K : Z) (a : list Z) :
  as_float (map (Z.mul K) a) = map (fun x => IZR K * x) (as_float a).
Proof.
  unfold as_float. rewrite !map_map. apply map_ext. intros x. apply mult_IZR.
Qed.

Lemma mean_scale (c : R) (xs : list R) :
  mean (map (fun x => c * x) xs) = c * mean xs.
Proof.
  unfold mean. rewrite rsum_scale, length_map. unfold Rdiv. ring.
Qed.

Lemma mean_nonneg (xs : list R) : Forall (fun x => 0 <= x) xs -> 0 <= mean xs.
Proof.
  intros Hall. unfold mean, Rdiv. apply Rmult_le_pos.
  - unfold rsum. induction Hall as [|x rest Hx Hrest IH]; cbn; lra.
  - destruct xs as [|x rest]; [cbn; rewrite Rinv_0; lra|].
    left. apply Rinv_0_lt_compat, lt_0_INR. cbn. lia.
Qed.

Lemma std_scale (c : R) (xs : list R) :
  0 <= c -> std (map (fun x => c * x) xs) = c * std xs.
Proof.
  intros Hc. unfold std. rewrite mean_scale, map_map.
  rewrite (map_ext _ (fun x => (c * c) * Rsqr (Rabs (x - mean xs)))).
  - rewrite <- (map_map (fun x => Rsqr (Rabs (x - mean xs)))
                        (fun y => (c * c) * y)).
    rewrite mean_scale, sqrt_mult_alt by nra.
    now rewrite sqrt_square.
  - intros x. rewrite <- !Rsqr_abs. unfold Rsqr. ring.
Qed.

(** Replaying a log any number of times leaves the fairness figures of
    every XPU unchanged: the request total is multiplied, while the number
    of targets, [cv], [rsd], the max/min ratio and the composite score stay
    the same. *)
Theorem replay_keeps_fairness (df : DataFrame) (k : nat) (x : Z) :
  (1 <= k)%nat ->
  In x (map LocalXpuId df) ->
  exists ms ms' m m',
    calculate_load_balance_metrics df = Ok ms /\
    calculate_load_balance_metrics (replay k df) = Ok ms' /\
    getitem ms x = Ok m /\
    getitem ms' x = Ok m' /\
    total_requests m' = (Z.of_nat k * total_requests m)%Z /\
    num_sues m' = num_sues m /\
    cv m' = cv m /\
    rsd m' = rsd m /\
    max_min_ratio m' = max_min_ratio m /\
    overall_score m' = overall_score m.
Proof.
  intros Hk Hin.
  assert (Hin' : In x (map LocalXpuId (replay k df))).
  { rewrite map_replay. now apply In_replay. }
  destruct (metrics_present df x Hin) as [ms [m [Hms [Hget Hm]]]].
  destruct (metrics_present (replay k df) x Hin') as [ms' [m' [Hms' [Hget' Hm']]]].
  exists ms, ms', m, m'.
  split; [exact Hms|]. split; [exact Hms'|].
  split; [exact Hget|]. split; [exact Hget'|].
  pose proof (xpu_metrics_present df x Hin) as He. cbv zeta in He.
  pose proof (xpu_metrics_present (replay k df) x Hin') as He'. cbv zeta in He'.
  rewrite He in Hm. rewrite He' in Hm'. clear He He'.
  inversion Hm as [Hmeq]. inversion Hm' as [Hmeq']. clear Hm Hm'.
  pose proof (select_local_nonempty df x Hin) as Hcol.
  pose proof (sue_counts_nonempty _ Hcol) as Hne.
  pose proof (sue_counts_positive (map SueId (select_local df x))) as Hpos.
  assert (Hsel : select_local (replay k df) x = replay k (select_local df x))
    by apply filter_replay.
  rewrite Hsel, map_replay, (sue_counts_replay k _ Hk), len_replay.
  set (sc := sort_index (value_counts (map SueId (select_local df x)))) in *.
  set (K := Z.of_nat k).
  assert (HK : (0 < K)%Z) by (unfold K; lia).
  assert (HKR : 0 < IZR K) by now apply IZR_lt.
  assert (Hcounts : map snd (map (fun e => (fst e, (K * snd e)%Z)) sc) =
                    map (Z.mul K) (map snd sc)).
  { rewrite !map_map. reflexivity. }
  rewrite Hcounts, as_float_scale, mean_scale, std_scale by lra.
  rewrite (zmin_scale K _ HK Hne), (zmax_scale K _ HK Hne).
  assert (Hlen : len (map (fun e => (fst e, (K * snd e)%Z)) sc) = len sc)
    by apply len_map.
  rewrite Hlen.
  assert (Hmean : 0 < mean (as_float (map snd sc))).
  { rewrite mean_as_float. now apply mean_count_positive. }
  assert (Hmin : 0 < IZR (zmin (map snd sc))).
  { apply IZR_lt. pose proof (zmin_positive _ Hne Hpos). lia. }
  assert (Hnum : 0 < IZR (len sc)).
  { apply IZR_lt. rewrite <- (len_map snd). now apply len_positive. }
  assert (Htot : 0 < IZR (len (select_local df x))).
  { apply IZR_lt. rewrite <- (len_map SueId). now apply len_positive. }
  assert (Hcv : IZR K * std (as_float (map snd sc)) /
                (IZR K * mean (as_float (map snd sc))) =
                std (as_float (map snd sc)) / mean (as_float (map snd sc)))
    by (field; lra).
  assert (Hrsd : IZR K * std (as_float (map snd sc)) /
                 (IZR (K * len (select_local df x)) / IZR (len sc)) * 100 =
                 std (as_float (map snd sc)) /
                 (IZR (len (select_local df x)) / IZR (len sc)) * 100)
    by (rewrite mult_IZR; field; lra).
  assert (Hratio : IZR (K * zmax (map snd sc)) / IZR (K * zmin (map snd sc)) =
                   IZR (zmax (map snd sc)) / IZR (zmin (map snd sc)))
    by (rewrite !mult_IZR; field; lra).
  cbn [total_requests num_sues cv rsd max_min_ratio].
  unfold overall_score, cv_score, rsd_score, ratio_score.
  cbn [cv rsd max_min_ratio]. rewrite Hcv, Hrsd, Hratio.
  repeat split; reflexivity.
Qed.

Lemma replay_keeps_fairness_witness :
  exists ms ms' m m',
    calculate_load_balance_metrics Examples.table = Ok ms /\
    calculate_load_balance_metrics (replay 3 Examples.table) = Ok ms' /\
    getitem ms 2%Z = Ok m /\
    getitem ms' 2%Z = Ok m' /\
    total_requests m' = (3 * total_requests m)%Z /\
    num_sues m' = num_sues m /\
    cv m' = cv m /\
    rsd m' = rsd m /\
    max_min_ratio m' = max_min_ratio m /\
    overall_score m' = overall_score m.
Proof.
  apply (replay_keeps_fairness Examples.table 3 2%Z).
  - lia.
  - cbn. auto.
Defined.

End ReplayFacts.

(** * The statistics file *)

Section LossFiles.

Import Loss LossExtra.
Local Open Scope string_scope.
Local Open Scope Z_scope.

(** For a log with sent packets the statistics file has six rows whose
    counts add up (received + network loss = sent, network loss + dropped
    = total loss) and whose rates are their counts in percent of the sent
    packets, except for the receiver row; for a log without sent packets
    only the error report is written. *)
Theorem loss_statistics_consistent (log : list string) :
  (total_sent (scan log) <> 0 ->
   exists recv dropped net_loss total_loss receiver_rate rows,
     loss_statistics (calculate_packet_loss log) = Some rows /\
     save_loss_analysis (calculate_packet_loss log) =
       ["loss_analysis_report.txt"; "loss_statistics.csv"] /\
     map (fun row => (metric row, count row)) rows =
       [("Total Sent", total_sent (scan log)); ("Total Received", recv);
        ("Total Dropped", dropped); ("Network Loss", net_loss);
        ("Receiver Loss", dropped); ("Total Loss", total_loss)] /\
     recv + net_loss = total_sent (scan log) /\
     net_loss + dropped = total_loss /\
     Forall (fun row =>
               metric row = "Receiver Loss" /\ rate row = receiver_rate \/
               rate row = (IZR (count row) / IZR (total_sent (scan log)) * 100)%R)
            rows) /\
  (total_sent (scan log) = 0 ->
   loss_statistics (calculate_packet_loss log) = None /\
   save_loss_analysis (calculate_packet_loss log) = ["error_report.txt"]).
Proof.
  rewrite calculate_packet_loss_value. split.
  - intros Hsent.
    destruct (Z.eqb_spec (total_sent (scan log)) 0) as [|_]; [contradiction|].
    set (s := total_sent (scan log)) in *.
    set (r := total_received (scan log)).
    set (d := if (r <? s) && (total_dropped (scan log) =? 0)
              then s - r else total_dropped (scan log)).
    unfold stats_from. cbn [loss_statistics save_loss_analysis].
    exists r, d, (s - r), (s - (r - d)).
    eexists. eexists. split; [reflexivity|]. split; [reflexivity|].
    split; [reflexivity|]. split; [lia|]. split; [lia|].
    assert (Hs : IZR s <> 0%R) by (apply not_0_IZR; exact Hsent).
    repeat apply Forall_cons; cbn [rate count metric];
      [ right; field; exact Hs
      | right; reflexivity
      | right; reflexivity
      | right; reflexivity
      | left; split; reflexivity
      | right; reflexivity
      | apply Forall_nil ].
  - intros Hsent. rewrite Hsent. cbn. split; reflexivity.
Qed.

Lemma loss_statistics_consistent_witness :
  (exists recv dropped net_loss total_loss receiver_rate rows,
     loss_statistics (calculate_packet_loss Examples.log_switch_loss) = Some rows /\
     save_loss_analysis (calculate_packet_loss Examples.log_switch_loss) =
       ["loss_analysis_report.txt"; "loss_statistics.csv"] /\
     map (fun row => (metric row, count row)) rows =
       [("Total Sent", 120); ("Total Received", recv);
        ("Total Dropped", dropped); ("Network Loss", net_loss);
        ("Receiver Loss", dropped); ("Total Loss", total_loss)] /\
     recv + net_loss = 120 /\
     net_loss + dropped = total_loss /\
     Forall (fun row =>
               metric row = "Receiver Loss" /\ rate row = receiver_rate \/
               rate row = (IZR (count row) / IZR 120 * 100)%R)
            rows) /\
  save_loss_analysis (calculate_packet_loss Examples.log_nothing_sent) =
    ["error_report.txt"].
Proof.
  split.
  - apply (proj1 (loss_statistics_consistent Examples.log_switch_loss)).
    vm_compute. discriminate.
  - apply (proj2 (loss_statistics_consistent Examples.log_nothing_sent)).
    reflexivity.
Defined.

Lemma scan_line_one_counter_witness :
  total_received
    (scan_line (mkTotals 5 6 7) "Summary: Sent 3 packets Port Received 9 packets") = 6 /\
  total_dropped
    (scan_line (mkTotals 5 6 7) "Summary: Sent 3 packets Port Received 9 packets") = 7.
Proof.
  apply (scan_line_one_counter (mkTotals 5 6 7)
           "Summary: Sent 3 packets Port Received 9 packets").
  reflexivity.
Defined.

Lemma find_default_log_file_none_witness :
  Files.find_default_log_file (Some []) = None.
Proof.
  apply (proj2 (find_default_log_file_none (Some []))). now right.
Defined.

End LossFiles.

